(** * DERP-over-HTTP client (package derphttp): connection lifecycle

    A shallow embedding of [derp/derphttp/derphttp_client.go].  The client
    is a record of handles; the network, the HTTP library and the DERP
    session are collaborators whose outcomes are supplied per call by an
    environment record, and whose invocations are recorded in a trace.
    The model is sequential: the two mutexes of the Go code serialise
    access and are not represented. *)

From Stdlib Require Import Ascii String.
From stdpp Require Import gmap strings list.

Open Scope string_scope.

(** ** Go standard library functions used by [connect] *)

Module GoStd.

Definition is_colon (a : ascii) : bool := Ascii.eqb a ":"%char.

Definition is_digit (a : ascii) : bool :=
  let n := nat_of_ascii a in (48 <=? n)%nat && (n <=? 57)%nat.

(** [strings.IndexByte(s, ':') >= 0] *)
Fixpoint has_colon (s : string) : bool :=
  match s with
  | EmptyString => false
  | String a s' => is_colon a || has_colon s'
  end.

Fixpoint all_digits (s : string) : bool :=
  match s with
  | EmptyString => true
  | String a s' => is_digit a && all_digits s'
  end.

(** Cut [s] at its last colon: [Some (s[:colon], s[colon+1:])], or [None]
    when [strings.LastIndexByte(s, ':')] is -1. *)
Fixpoint cut_last_colon (s : string) : option (string * string) :=
  match s with
  | EmptyString => None
  | String a s' =>
      match cut_last_colon s' with
      | Some (h, p) => Some (String a h, p)
      | None => if is_colon a then Some (EmptyString, s') else None
      end
  end.

Definition has_prefix_bracket (s : string) : bool :=
  match s with
  | String a _ => Ascii.eqb a "["%char
  | EmptyString => false
  end.

Fixpoint has_suffix_bracket (s : string) : bool :=
  match s with
  | EmptyString => false
  | String a EmptyString => Ascii.eqb a "]"%char
  | String _ s' => has_suffix_bracket s'
  end.

Fixpoint drop_last (s : string) : string :=
  match s with
  | EmptyString => EmptyString
  | String _ EmptyString => EmptyString
  | String a s' => String a (drop_last s')
  end.

(** net/url [splitHostPort]: the port is what follows the last colon when
    that is empty or all digits; brackets around the host are removed. *)
Definition splitHostPort (hostPort : string) : string * string :=
  let '(host, port) :=
    match cut_last_colon hostPort with
    | Some (h, p) => if all_digits p then (h, p) else (hostPort, EmptyString)
    | None => (hostPort, EmptyString)
    end in
  if has_prefix_bracket host && has_suffix_bracket host
  then (match host with
        | String _ rest => drop_last rest
        | EmptyString => EmptyString
        end, port)
  else (host, port).

(** net [JoinHostPort]: a host with a colon is taken for an IPv6 literal
    and bracketed. *)
Definition JoinHostPort (host port : string) : string :=
  if has_colon host then "[" +:+ host +:+ "]:" +:+ port
  else host +:+ ":" +:+ port.

End GoStd.

(** ** Data model *)

(** [*url.URL], the fields and methods the client reads.  [Host] is
    the URL's authority, "host" or "host:port", as in Go. *)
Record URL := mkURL {
  Scheme : string;
  Host : string;
  Path : string
}.

Definition Hostname (u : URL) : string := fst (GoStd.splitHostPort (Host u)).
Definition Port (u : URL) : string := snd (GoStd.splitHostPort (Host u)).

(** Go [error] values; a nil error is [None]. *)
Inductive error : Type :=
| ErrClientClosed
| ErrCollab (msg : string)
| Errorf (msg : string).

Definition Error (e : error) : string :=
  match e with
  | ErrClientClosed => "derphttp.Client closed"
  | ErrCollab m => m
  | Errorf m => m
  end.

(** The [%v] verb applied to an error value that may be nil. *)
Definition fmt_v (e : option error) : string :=
  match e with
  | None => "<nil>"
  | Some e => Error e
  end.

#[export] Instance error_eq_dec : EqDecision error.
Proof. solve_decision. Defined.

Definition Conn := nat.
Definition Key := nat.
Definition Bytes := list nat.

Record Request := mkRequest {
  Method : string;
  ReqURL : URL;
  Header : gmap string (list string)
}.

(** [http.Header.Set] *)
Definition Header_Set (k v : string) (r : Request) : Request :=
  {| Method := Method r; ReqURL := ReqURL r; Header := <[k := [v]]> (Header r) |}.

Record Response := mkResponse {
  StatusCode : Z;
  Body : string
}.

Definition StatusSwitchingProtocols : Z := 101.

(** [*derp.Client]: the protocol session, built over one raw transport. *)
Record DerpClient := mkDerp {
  dc_key : Key;
  dc_conn : Conn
}.

Record Client := mkClient {
  privateKey : Key;
  closed : bool;
  url : URL;
  resp : option Response;
  netConn : option Conn;
  client : option DerpClient
}.

(** ** The outside world *)

Inductive Event : Type :=
| EvLog (msg : string)
| EvDial (tls : bool) (addr : string) (res : option Conn)
| EvWrite (n : Conn) (req : Request)
| EvFlush (n : Conn)
| EvReadResponse (n : Conn)
| EvReadBody (n : Conn)
| EvNewSession (n : Conn)
| EvSessionSend (n : Conn) (dst : Key) (b : Bytes)
| EvSessionRecv (n : Conn)
| EvConnClose (n : Conn).

Record World := mkWorld {
  next_conn : Conn;
  closed_conns : list Conn;
  trace : list Event
}.

(** What the collaborators answer during one call of a public operation. *)
Record Env := mkEnv {
  env_dial : option error;
  env_newreq : option error;
  env_write : option error;
  env_flush : option error;
  env_read : error + Response;
  env_newclient : option error;
  env_send : option error;
  env_recv : option Bytes * option error
}.

(** ** A state monad over the client and the world *)

Definition St : Type := Client * World.
Definition M (A : Type) : Type := St -> A * St.

Definition ret {A} (a : A) : M A := fun s => (a, s).
Definition bind {A B} (m : M A) (k : A -> M B) : M B :=
  fun s => let '(a, s') := m s in k a s'.

Declare Scope go_scope.
Delimit Scope go_scope with go.
Notation "x <- m ;; k" := (bind m (fun x => k))
  (at level 200, m at level 99, k at level 200, right associativity) : go_scope.
Notation "m ;;; k" := (bind m (fun _ => k))
  (at level 200, k at level 200, right associativity) : go_scope.
Open Scope go_scope.

Definition get_client : M Client := fun s => (fst s, s).
Definition emit (ev : Event) : M unit :=
  fun '(c, w) =>
    (tt, (c, {| next_conn := next_conn w; closed_conns := closed_conns w;
                trace := trace w ++ [ev] |})).

(** Calls that can fail: an error ends the sequence, as [return nil, err]
    does in the Go code. *)
Definition MR (A : Type) : Type := M (error + A).

(** [tls.Dial] / [net.Dial]: a successful dial returns a transport never
    handed out before. *)
Definition dial (tls : bool) (addr : string) (outcome : option error)
  : MR Conn :=
  fun '(c, w) =>
    match outcome with
    | Some e =>
        (inl e,
         (c, {| next_conn := next_conn w; closed_conns := closed_conns w;
                trace := trace w ++ [EvDial tls addr None] |}))
    | None =>
        let n := next_conn w in
        (inr n,
         (c, {| next_conn := S n; closed_conns := closed_conns w;
                trace := trace w ++ [EvDial tls addr (Some n)] |}))
    end.

(** [net.Conn.Close] *)
Definition conn_Close (n : Conn) : M unit :=
  fun '(c, w) =>
    (tt, (c, {| next_conn := next_conn w; closed_conns := n :: closed_conns w;
                trace := trace w ++ [EvConnClose n] |})).

Definition set_netConn (n : option Conn) : M unit :=
  fun '(c, w) =>
    (tt, ({| privateKey := privateKey c; closed := closed c; url := url c;
             resp := resp c; netConn := n; client := client c |}, w)).

Definition set_session (r : option Response) (d : option DerpClient) : M unit :=
  fun '(c, w) =>
    (tt, ({| privateKey := privateKey c; closed := closed c; url := url c;
             resp := r; netConn := netConn c; client := d |}, w)).

Definition set_closed : M unit :=
  fun '(c, w) =>
    (tt, ({| privateKey := privateKey c; closed := true; url := url c;
             resp := resp c; netConn := netConn c; client := client c |}, w)).

Definition bindR {A B} (m : MR A) (k : A -> MR B) : MR B :=
  r <- m ;;
  match r with
  | inl err => ret (inl err)
  | inr a => k a
  end.

Notation "x <-? m ;; k" := (bindR m (fun x => k))
  (at level 200, m at level 99, k at level 200, right associativity) : go_scope.

(** A collaborator call whose only result is an error value. *)
Definition call (ev : Event) (outcome : option error) : MR unit :=
  emit ev ;;;
  ret (match outcome with Some err => inl err | None => inr tt end).

(** ** The client *)

(** [NewClient]; [parsed] is the outcome of [url.Parse(serverURL)]. *)
Definition NewClient (privateKey : Key) (parsed : error + URL) : error + Client :=
  match parsed with
  | inl err => inl (Errorf ("derphttp.NewClient: " +:+ Error err))
  | inr u =>
      inr {| privateKey := privateKey; closed := false; url := u;
             resp := None; netConn := None; client := None |}
  end.

(** [http.NewRequest("GET", c.url.String(), nil)]: the request carries the
    client's URL and an empty header. *)
Definition NewRequest (method : string) (u : URL) (outcome : option error)
  : MR Request :=
  ret (match outcome with
       | Some err => inl err
       | None => inr {| Method := method; ReqURL := u; Header := ∅ |}
       end).

(** The address [connect] dials, and whether it dials with TLS. *)
Definition dial_target (u : URL) : bool * string :=
  if String.eqb (Scheme u) "https" then
    let port := Port u in
    let port := if String.eqb port "" then "443" else port in
    (true, GoStd.JoinHostPort (Host u) port)
  else (false, Host u).

(** [connect] from the upgrade request to the construction of the
    session, over the transport [netConn] just dialled. *)
Definition handshake (e : Env) (netConn : Conn) : MR DerpClient :=
  c <- get_client ;;
  req <-? NewRequest "GET" (url c) (env_newreq e) ;;
  let req := Header_Set "Upgrade" "WebSocket" req in
  let req := Header_Set "Connection" "Upgrade" req in
  _ <-? call (EvWrite netConn req) (env_write e) ;;
  _ <-? call (EvFlush netConn) (env_flush e) ;;
  emit (EvReadResponse netConn) ;;;
  resp <-? ret (env_read e) ;;
  (* here the function's [err] is the nil that ReadResponse returned *)
  let err : option error := None in
  if negb (StatusCode resp =? StatusSwitchingProtocols)%Z then
    emit (EvReadBody netConn) ;;;
    ret (inl (Errorf ("GET failed: " +:+ fmt_v err +:+ ": " +:+ Body resp)))
  else
    let resp := {| StatusCode := StatusCode resp; Body := "" |} in
    _ <-? call (EvNewSession netConn) (env_newclient e) ;;
    let derpClient := {| dc_key := privateKey c; dc_conn := netConn |} in
    set_session (Some resp) (Some derpClient) ;;;
    ret (inr derpClient).

(** The deferred function of [connect]: it runs when [err] is not nil. *)
Definition connect_deferred (caller : string) (netConn : option Conn)
    (err : error) : MR DerpClient :=
  let err := Errorf (caller +:+ " connect: " +:+ Error err) in
  match netConn with
  | Some n => conn_Close n
  | None => ret tt
  end ;;;
  ret (inl err).

Definition connect (e : Env) (caller : string) : MR DerpClient :=
  c <- get_client ;;
  if closed c then ret (inl ErrClientClosed)
  else
    match client c with
    | Some d => ret (inr d)
    | None =>
        emit (EvLog (caller +:+ ": connecting")) ;;;
        let '(tls, addr) := dial_target (url c) in
        r <- dial tls addr (env_dial e) ;;
        match r with
        | inl err => connect_deferred caller None err
        | inr netConn =>
            set_netConn (Some netConn) ;;;
            r <- handshake e netConn ;;
            match r with
            | inl err => connect_deferred caller (Some netConn) err
            | inr d => ret (inr d)
            end
        end
    end.

Definition Connect (e : Env) : M (option error) :=
  r <- connect e "derphttp.Client.Connect" ;;
  ret (match r with inl err => Some err | inr _ => None end).

(** The unexported [close]. *)
Definition close : M unit :=
  c <- get_client ;;
  match netConn c with
  | Some n => conn_Close n
  | None => ret tt
  end ;;;
  c <- get_client ;;
  match client c with
  | None => ret tt
  | Some _ =>
      set_session None None ;;;
      set_netConn None
  end.

(** [derp.Client.Send] and [derp.Client.Recv] of the session. *)
Definition session_Send (d : DerpClient) (dst : Key) (b : Bytes)
    (outcome : option error) : M (option error) :=
  emit (EvSessionSend (dc_conn d) dst b) ;;;
  ret outcome.

Definition session_Recv (d : DerpClient)
    (outcome : option Bytes * option error) : M (option Bytes * option error) :=
  emit (EvSessionRecv (dc_conn d)) ;;;
  ret outcome.

Definition Send (e : Env) (dstKey : Key) (b : Bytes) : M (option error) :=
  r <- connect e "derphttp.Client.Send" ;;
  match r with
  | inl err => ret (Some err)
  | inr client =>
      (* the function's own [err] is nil from here on; the [err] tested by
         the if statement is a new variable local to that statement *)
      let err : option error := None in
      err' <- session_Send client dstKey b (env_send e) ;;
      match err' with
      | Some _ => close
      | None => ret tt
      end ;;;
      ret err
  end.

Definition Recv (e : Env) : M (option Bytes * option error) :=
  r <- connect e "derphttp.Client.Recv" ;;
  match r with
  | inl err => ret (None, Some err)
  | inr client =>
      r <- session_Recv client (env_recv e) ;;
      let '(m, err) := r in
      match err with
      | Some _ => close
      | None => ret tt
      end ;;;
      ret (m, err)
  end.

Definition Close : M (option error) :=
  c <- get_client ;;
  if closed c then ret (Some ErrClientClosed)
  else
    set_closed ;;;
    close ;;;
    ret None.

(** ** Sequences of public operations *)

Inductive Op : Type :=
| OpConnect (e : Env)
| OpSend (e : Env) (dstKey : Key) (b : Bytes)
| OpRecv (e : Env)
| OpClose.

Definition step (o : Op) : M (option error) :=
  match o with
  | OpConnect e => Connect e
  | OpSend e dst b => Send e dst b
  | OpRecv e => r <- Recv e ;; ret (snd r)
  | OpClose => Close
  end.

Fixpoint run (ops : list Op) : M (list (option error)) :=
  match ops with
  | [] => ret []
  | o :: ops' =>
      r <- step o ;;
      rs <- run ops' ;;
      ret (r :: rs)
  end.

(** ** Concrete inputs used in examples *)

Definition w0 : World := {| next_conn := 0; closed_conns := []; trace := [] |}.

Definition resp101 : Response := {| StatusCode := 101; Body := "" |}.
Definition resp200 : Response := {| StatusCode := 200; Body := "not a relay" |}.

(** No collaborator fails and the server switches protocols. *)
Definition env_ok : Env :=
  {| env_dial := None; env_newreq := None; env_write := None;
     env_flush := None; env_read := inr resp101; env_newclient := None;
     env_send := None; env_recv := (Some [1; 2], None) |}.

Definition env_status200 : Env :=
  {| env_dial := None; env_newreq := None; env_write := None;
     env_flush := None; env_read := inr resp200; env_newclient := None;
     env_send := None; env_recv := (Some [1; 2], None) |}.

Definition env_send_fails : Env :=
  {| env_dial := None; env_newreq := None; env_write := None;
     env_flush := None; env_read := inr resp101; env_newclient := None;
     env_send := Some (ErrCollab "write: broken pipe");
     env_recv := (None, Some (ErrCollab "read: connection reset")) |}.

Definition url_plain : URL :=
  {| Scheme := "http"; Host := "relay.example:80"; Path := "/derp" |}.
Definition url_tls_port : URL :=
  {| Scheme := "https"; Host := "relay.example:443"; Path := "/derp" |}.
Definition url_tls_noport : URL :=
  {| Scheme := "https"; Host := "relay.example"; Path := "/derp" |}.

Definition fresh (u : URL) : Client :=
  {| privateKey := 7; closed := false; url := u;
     resp := None; netConn := None; client := None |}.

(** ** Reading a run *)

(** The request that [connect] writes for a client at [u]. *)
Definition upgrade_request (u : URL) : Request :=
  {| Method := "GET"; ReqURL := u;
     Header := <["Connection" := ["Upgrade"]]> (<["Upgrade" := ["WebSocket"]]> ∅) |}.

(** What a connection attempt that meets no fault adds to the trace. *)
Definition connect_events (caller : string) (u : URL) (n : Conn) : list Event :=
  [EvLog (caller +:+ ": connecting");
   EvDial (fst (dial_target u)) (snd (dial_target u)) (Some n);
   EvWrite n (upgrade_request u); EvFlush n; EvReadResponse n; EvNewSession n].

(** The client once a session over transport [n] is installed. *)
Definition connected (c : Client) (status : Z) (n : Conn) : Client :=
  {| privateKey := privateKey c; closed := closed c; url := url c;
     resp := Some {| StatusCode := status; Body := "" |};
     netConn := Some n;
     client := Some {| dc_key := privateKey c; dc_conn := n |} |}.

(** The client with both handles and the response dropped. *)
Definition disconnected (c : Client) : Client :=
  {| privateKey := privateKey c; closed := closed c; url := url c;
     resp := None; netConn := None; client := None |}.

Definition extend (w : World) (opened : nat) (closing : list Conn)
    (evs : list Event) : World :=
  {| next_conn := opened + next_conn w;
     closed_conns := closing ++ closed_conns w;
     trace := trace w ++ evs |}.

(** No stage of a connection attempt fails under [e]. *)
Definition connect_ok (e : Env) : bool :=
  match env_dial e, env_newreq e, env_write e, env_flush e,
        env_read e, env_newclient e with
  | None, None, None, None, inr r, None =>
      (StatusCode r =? StatusSwitchingProtocols)%Z
  | _, _, _, _, _, _ => false
  end.

Definition is_dial (ev : Event) : bool :=
  match ev with EvDial _ _ _ => true | _ => false end.
Definition is_handshake_write (ev : Event) : bool :=
  match ev with EvWrite _ _ => true | _ => false end.

Definition dials (t : list Event) : nat := length (filter is_dial t).
Definition handshakes (t : list Event) : nat :=
  length (filter is_handshake_write t).

(** The handles of a client are paired: a session comes with its own
    transport, and a transport handle without a session names a transport
    that has been closed. *)
Definition handles_paired (s : St) : Prop :=
  let '(c, w) := s in
  match client c with
  | Some d => netConn c = Some (dc_conn d)
  | None => forall n, netConn c = Some n -> n ∈ closed_conns w
  end.

(** ** The five ways a call of [connect] can go *)

Definition with_netConn (c : Client) (n : option Conn) : Client :=
  {| privateKey := privateKey c; closed := closed c; url := url c;
     resp := resp c; netConn := n; client := client c |}.

Definition wrapped (caller : string) (err : error) : error :=
  Errorf (caller +:+ " connect: " +:+ Error err).

Inductive connect_outcome (e : Env) (caller : string) (c : Client) (w : World)
  : error + DerpClient -> St -> Prop :=
| co_closed :
    closed c = true ->
    connect_outcome e caller c w (inl ErrClientClosed) (c, w)
| co_reuse d :
    closed c = false -> client c = Some d ->
    connect_outcome e caller c w (inr d) (c, w)
| co_fresh :
    closed c = false -> client c = None -> connect_ok e = true ->
    connect_outcome e caller c w
      (inr {| dc_key := privateKey c; dc_conn := next_conn w |})
      (connected c 101 (next_conn w),
       extend w 1 [] (connect_events caller (url c) (next_conn w)))
| co_dial_failed err :
    closed c = false -> client c = None -> env_dial e = Some err ->
    connect_outcome e caller c w
      (inl (wrapped caller err))
      (c, extend w 0 []
            [EvLog (caller +:+ ": connecting");
             EvDial (fst (dial_target (url c))) (snd (dial_target (url c))) None])
| co_handshake_failed err evs :
    closed c = false -> client c = None -> env_dial e = None ->
    connect_ok e = false ->
    connect_outcome e caller c w
      (inl (wrapped caller err))
      (with_netConn c (Some (next_conn w)),
       extend w 1 [next_conn w]
         ([EvLog (caller +:+ ": connecting");
           EvDial (fst (dial_target (url c))) (snd (dial_target (url c)))
             (Some (next_conn w))]
          ++ evs ++ [EvConnClose (next_conn w)])).

(** What [close] does to the world. *)
Definition closing (c : Client) (w : World) : World :=
  match netConn c with
  | Some n => extend w 0 [n] [EvConnClose n]
  | None => w
  end.

Definition with_closed (c : Client) : Client :=
  {| privateKey := privateKey c; closed := true; url := url c;
     resp := resp c; netConn := netConn c; client := client c |}.

(** Outcomes of the session calls of an operation. *)
Definition failed (o : option error) : bool :=
  match o with Some _ => true | None => false end.

(** The session call made by [o] fails. *)
Definition session_fails (o : Op) : bool :=
  match o with
  | OpSend e _ _ => failed (env_send e)
  | OpRecv e => failed (snd (env_recv e))
  | OpConnect _ | OpClose => false
  end.

(** [o] is a Connect, Send or Recv that meets no fault. *)
Definition healthy (o : Op) : bool :=
  match o with
  | OpConnect e => connect_ok e
  | OpSend e _ _ => connect_ok e && negb (failed (env_send e))
  | OpRecv e => connect_ok e && negb (failed (snd (env_recv e)))
  | OpClose => false
  end.

Definition caller_of (o : Op) : string :=
  match o with
  | OpConnect _ => "derphttp.Client.Connect"
  | OpSend _ _ _ => "derphttp.Client.Send"
  | OpRecv _ => "derphttp.Client.Recv"
  | OpClose => "derphttp.Client.Close"
  end.

Definition session_events (o : Op) (n : Conn) : list Event :=
  match o with
  | OpSend _ dst b => [EvSessionSend n dst b]
  | OpRecv _ => [EvSessionRecv n]
  | OpConnect _ | OpClose => []
  end.

(** ** Further readings of a run *)

Definition is_session_call (ev : Event) : bool :=
  match ev with
  | EvSessionSend _ _ _ | EvSessionRecv _ => true
  | _ => false
  end.

Definition session_calls (t : list Event) : nat :=
  length (filter is_session_call t).

(** The error of the first stage of a connection attempt that fails under
    [e], the stages taken in the order [connect] goes through them. *)
Definition first_fault (e : Env) : option error :=
  match env_dial e with
  | Some err => Some err
  | None =>
  match env_newreq e with
  | Some err => Some err
  | None =>
  match env_write e with
  | Some err => Some err
  | None =>
  match env_flush e with
  | Some err => Some err
  | None =>
  match env_read e with
  | inl err => Some err
  | inr r =>
      if (StatusCode r =? StatusSwitchingProtocols)%Z then env_newclient e
      else Some (Errorf ("GET failed: <nil>: " +:+ Body r))
  end end end end end.

(** The events of the handshake over transport [n], up to the stage that
    fails. *)
Definition handshake_events (e : Env) (u : URL) (n : Conn) : list Event :=
  match env_newreq e with
  | Some _ => []
  | None =>
      EvWrite n (upgrade_request u) ::
      match env_write e with
      | Some _ => []
      | None =>
          EvFlush n ::
          match env_flush e with
          | Some _ => []
          | None =>
              EvReadResponse n ::
              match env_read e with
              | inl _ => []
              | inr r =>
                  if (StatusCode r =? StatusSwitchingProtocols)%Z
                  then [EvNewSession n] else [EvReadBody n]
              end
          end
      end
  end.

(** The transports that have been dialled and not closed. *)
Definition open_transport (w : World) (n : Conn) : Prop :=
  n < next_conn w /\ n ∉ closed_conns w.

(** The handles are paired, only dialled transports have been closed, and
    the open transports are the transport of the session, if there is one. *)
Definition tidy (s : St) : Prop :=
  let '(c, w) := s in
  handles_paired (c, w) /\
  (forall n, n ∈ closed_conns w -> n < next_conn w) /\
  (forall n, open_transport w n <->
             exists d, client c = Some d /\ dc_conn d = n).

(** What the client keeps beside a session: the response with its body
    emptied, and the client's own key inside the session. *)
Definition session_record (s : St) : Prop :=
  match client (fst s) with
  | Some d =>
      resp (fst s) = Some {| StatusCode := 101; Body := "" |} /\
      dc_key d = privateKey (fst s)
  | None => resp (fst s) = None
  end.

(** The client has no session and is not closed: the next Connect, Send
    or Recv starts a connection attempt. *)
Definition attempts (c : Client) : bool :=
  negb (closed c) && match client c with Some _ => false | None => true end.

(** The collaborators' answers an operation runs under; Close consults
    none. *)
Definition op_env (o : Op) : option Env :=
  match o with
  | OpConnect e | OpSend e _ _ | OpRecv e => Some e
  | OpClose => None
  end.

(** [o] is a Connect, or a Send or Recv whose session call succeeds. *)
Definition session_ok (o : Op) : bool :=
  match o with
  | OpConnect _ => true
  | OpSend e _ _ => negb (failed (env_send e))
  | OpRecv e => negb (failed (snd (env_recv e)))
  | OpClose => false
  end.

(** Every transport dialled so far has been closed, and nothing else. *)
Definition settled (w : World) : Prop :=
  forall n, n < next_conn w <-> n ∈ closed_conns w.

(** The write of the upgrade request fails; so would the stages after it. *)
Definition env_write_fails : Env :=
  {| env_dial := None; env_newreq := None;
     env_write := Some (ErrCollab "write: timeout");
     env_flush := Some (ErrCollab "flush: never reached");
     env_read := inl (ErrCollab "read: never reached");
     env_newclient := None; env_send := None; env_recv := (None, None) |}.

(** * Properties *)

Ltac unfold_ops :=
  unfold step, Connect, Send, Recv, Close, close, connect, connect_deferred,
    handshake, NewRequest, call, session_Send, session_Recv, dial,
    conn_Close, set_netConn, set_session, set_closed, emit, get_client,
    bindR, bind, ret.

Ltac outcome_cases spec H :=
  pose proof spec as H;
  match type of H with
  | connect_outcome ?e ?caller ?c ?w _ _ =>
      destruct (connect e caller (c, w)) as [[?err|?d] [?c ?w]]
  end;
  cbn [fst snd] in H; inversion H; subst; clear H.

Section Connect.

Variables (e : Env) (caller : string) (c : Client) (w : World).

Lemma connect_closed :
  closed c = true -> connect e caller (c, w) = (inl ErrClientClosed, (c, w)).
Proof. intros H. unfold_ops. cbn. now rewrite H. Qed.

Lemma connect_connected d :
  closed c = false -> client c = Some d ->
  connect e caller (c, w) = (inr d, (c, w)).
Proof. intros H1 H2. unfold_ops. cbn. now rewrite H1, H2. Qed.

Lemma connect_ok_inv :
  connect_ok e = true ->
  env_dial e = None /\ env_newreq e = None /\ env_write e = None /\
  env_flush e = None /\ env_newclient e = None /\
  exists r, env_read e = inr r /\ StatusCode r = 101%Z.
Proof.
  unfold connect_ok.
  destruct (env_dial e), (env_newreq e), (env_write e), (env_flush e),
    (env_read e) as [|r], (env_newclient e); try discriminate.
  intros H%Z.eqb_eq. repeat split; eauto.
Qed.

Lemma connect_fresh :
  closed c = false -> client c = None -> connect_ok e = true ->
  connect e caller (c, w) =
    (inr {| dc_key := privateKey c; dc_conn := next_conn w |},
     (connected c 101 (next_conn w),
      extend w 1 [] (connect_events caller (url c) (next_conn w)))).
Proof.
  intros H1 H2 (Hd & Hq & Hw & Hf & Hn & r & Hr & Hs)%connect_ok_inv.
  unfold_ops. cbn. rewrite H1, H2.
  destruct (dial_target (url c)) as [tls addr] eqn:Ht.
  rewrite Hd. cbn. rewrite Hq, Hw. cbn. rewrite Hf. cbn. rewrite Hr. cbn.
  rewrite Hs. cbn. rewrite Hn. cbn.
  unfold connected, extend, connect_events. cbn. rewrite Ht. cbn.
  rewrite <- !app_assoc. reflexivity.
Qed.

End Connect.

Lemma connect_spec e caller c w :
  connect_outcome e caller c w
    (fst (connect e caller (c, w))) (snd (connect e caller (c, w))).
Proof.
  destruct (closed c) eqn:Hcl.
  { rewrite connect_closed by done. now constructor. }
  destruct (client c) as [d|] eqn:Hd.
  { rewrite (connect_connected _ _ _ _ d) by done. now constructor. }
  destruct (connect_ok e) eqn:Hok.
  { rewrite connect_fresh by done. now constructor. }
  unfold_ops. cbn. rewrite Hcl, Hd.
  destruct (dial_target (url c)) as [tls addr] eqn:Ht. cbn.
  destruct (env_dial e) as [err|] eqn:Hdial; cbn.
  { replace tls with (fst (dial_target (url c))) by now rewrite Ht.
    replace addr with (snd (dial_target (url c))) by now rewrite Ht.
    pose proof (co_dial_failed e caller c w err Hcl Hd Hdial) as H.
    unfold extend, wrapped in H. cbn in H.
    rewrite <- ?app_assoc in *. exact H. }
  assert (Hfail : forall err evs,
    connect_outcome e caller c w (inl (wrapped caller err))
      (with_netConn c (Some (next_conn w)),
       {| next_conn := S (next_conn w);
          closed_conns := next_conn w :: closed_conns w;
          trace := (trace w ++ [EvLog (caller +:+ ": connecting")]
                    ++ [EvDial tls addr (Some (next_conn w))])
                   ++ evs ++ [EvConnClose (next_conn w)] |})).
  { intros err evs.
    replace tls with (fst (dial_target (url c))) by now rewrite Ht.
    replace addr with (snd (dial_target (url c))) by now rewrite Ht.
    pose proof (co_handshake_failed e caller c w err evs Hcl Hd Hdial) as H.
    unfold extend in H. cbn in H. rewrite <- ?app_assoc in *. cbn in *.
    apply H. exact Hok. }
  unfold connect_ok in Hok. rewrite Hdial in Hok. unfold wrapped in Hfail.
  destruct (env_newreq e) as [err|]; cbn.
  { specialize (Hfail err []). rewrite <- ?app_assoc in *. exact Hfail. }
  destruct (env_write e) as [err|]; cbn.
  { specialize (Hfail err [EvWrite (next_conn w) (upgrade_request (url c))]).
    rewrite <- ?app_assoc in *. exact Hfail. }
  destruct (env_flush e) as [err|]; cbn.
  { specialize (Hfail err [EvWrite (next_conn w) (upgrade_request (url c));
                           EvFlush (next_conn w)]).
    rewrite <- ?app_assoc in *. exact Hfail. }
  destruct (env_read e) as [err|r]; cbn.
  { specialize (Hfail err [EvWrite (next_conn w) (upgrade_request (url c));
                           EvFlush (next_conn w); EvReadResponse (next_conn w)]).
    rewrite <- ?app_assoc in *. exact Hfail. }
  destruct (StatusCode r =? StatusSwitchingProtocols)%Z eqn:Hs; cbn.
  - destruct (env_newclient e) as [err|]; [|discriminate]. cbn.
    specialize (Hfail err [EvWrite (next_conn w) (upgrade_request (url c));
                           EvFlush (next_conn w); EvReadResponse (next_conn w);
                           EvNewSession (next_conn w)]).
    rewrite <- ?app_assoc in *. exact Hfail.
  - specialize (Hfail (Errorf ("GET failed: <nil>: " +:+ Body r))
                  [EvWrite (next_conn w) (upgrade_request (url c));
                   EvFlush (next_conn w); EvReadResponse (next_conn w);
                   EvReadBody (next_conn w)]).
    rewrite <- ?app_assoc in *. exact Hfail.
Qed.

(** ** Teardown *)

Lemma close_spec c w :
  close (c, w) =
    (tt, (match client c with Some _ => disconnected c | None => c end,
          closing c w)).
Proof.
  unfold_ops. unfold closing. cbn.
  destruct (netConn c) as [n|]; cbn; destruct (client c); cbn; reflexivity.
Qed.

Lemma Close_open c w :
  closed c = false ->
  Close (c, w) =
    (None,
     (match client c with
      | Some _ =>
          {| privateKey := privateKey c; closed := true; url := url c;
             resp := None; netConn := None; client := None |}
      | None =>
          {| privateKey := privateKey c; closed := true; url := url c;
             resp := resp c; netConn := netConn c; client := None |}
      end,
      closing c w)).
Proof.
  intros H. unfold Close, bind, get_client, set_closed. cbn -[close].
  rewrite H. rewrite close_spec. unfold ret, closing, disconnected. cbn.
  destruct (client c); reflexivity.
Qed.

Lemma Close_closed c w :
  closed c = true -> Close (c, w) = (Some ErrClientClosed, (c, w)).
Proof. intros H. unfold_ops. cbn. now rewrite H. Qed.

Lemma step_closed o c w :
  closed c = true -> step o (c, w) = (Some ErrClientClosed, (c, w)).
Proof.
  intros H. destruct o as [e|e dst b|e|]; cbn.
  - unfold Connect, bind. now rewrite connect_closed.
  - unfold Send, bind. now rewrite connect_closed.
  - unfold Recv, bind. now rewrite connect_closed.
  - now apply Close_closed.
Qed.

Lemma run_closed ops c w :
  closed c = true ->
  run ops (c, w) = (repeat (Some ErrClientClosed) (length ops), (c, w)).
Proof.
  intros H. induction ops as [|o ops IH]; [reflexivity|].
  cbn. unfold bind. rewrite step_closed by exact H. rewrite IH. reflexivity.
Qed.

(** A [Send] or [Recv] whose session call fails, on an established
    session. *)
Lemma Send_session_failure e dst b c w d err :
  closed c = false -> client c = Some d -> env_send e = Some err ->
  Send e dst b (c, w) =
    (None,
     (disconnected c,
      closing c (extend w 0 [] [EvSessionSend (dc_conn d) dst b]))).
Proof.
  intros H1 H2 H3. unfold Send, bind.
  rewrite (connect_connected _ _ _ _ d) by done.
  unfold session_Send, bind, emit, ret. cbn -[close]. rewrite H3.
  rewrite close_spec, H2. reflexivity.
Qed.

Lemma Recv_session_failure e c w d m err :
  closed c = false -> client c = Some d -> env_recv e = (m, Some err) ->
  Recv e (c, w) =
    ((m, Some err),
     (disconnected c,
      closing c (extend w 0 [] [EvSessionRecv (dc_conn d)]))).
Proof.
  intros H1 H2 H3. unfold Recv, bind.
  rewrite (connect_connected _ _ _ _ d) by done.
  unfold session_Recv, bind, emit, ret. cbn -[close]. rewrite H3.
  rewrite close_spec, H2. reflexivity.
Qed.

(** ** The pairing of the two handles *)

Lemma connect_paired e caller c w :
  handles_paired (c, w) -> handles_paired (snd (connect e caller (c, w))).
Proof.
  intros Hp. outcome_cases (connect_spec e caller c w) H; cbn [snd]; try exact Hp;
    unfold handles_paired in *; cbn; try reflexivity.
  match goal with Hc : client _ = None |- _ => rewrite Hc end.
  intros n [= <-]. apply list_elem_of_here.
Qed.

Lemma close_paired c w : handles_paired (snd (close (c, w))).
Proof.
  rewrite close_spec. cbn [snd]. unfold handles_paired, closing.
  destruct (client c) eqn:Hc; cbn; [discriminate|].
  rewrite Hc. intros n Hn. rewrite Hn. cbn. apply list_elem_of_here.
Qed.

Lemma emit_paired c w ev :
  handles_paired (c, w) -> handles_paired (snd (emit ev (c, w))).
Proof. unfold handles_paired. cbn. tauto. Qed.

Lemma step_paired o c w :
  handles_paired (c, w) -> handles_paired (snd (step o (c, w))).
Proof.
  intros Hp. destruct o as [e|e dst b|e|]; cbn [step].
  - unfold Connect, bind.
    pose proof (connect_paired e "derphttp.Client.Connect" c w Hp) as H1.
    destruct (connect e _ (c, w)) as [r s1]. exact H1.
  - unfold Send, bind.
    pose proof (connect_paired e "derphttp.Client.Send" c w Hp) as H1.
    destruct (connect e _ (c, w)) as [[err|d] [c1 w1]]; cbn [snd] in *;
      [exact H1|].
    unfold session_Send, bind, ret.
    pose proof (emit_paired c1 w1 (EvSessionSend (dc_conn d) dst b) H1) as H2.
    destruct (emit _ (c1, w1)) as [[] [c2 w2]]. cbn [snd] in H2.
    destruct (env_send e).
    + pose proof (close_paired c2 w2) as H3.
      destruct (close (c2, w2)) as [[] s3]. exact H3.
    + exact H2.
  - unfold Recv, bind.
    pose proof (connect_paired e "derphttp.Client.Recv" c w Hp) as H1.
    destruct (connect e _ (c, w)) as [[err|d] [c1 w1]]; cbn [snd] in *;
      [exact H1|].
    unfold session_Recv, bind, ret.
    pose proof (emit_paired c1 w1 (EvSessionRecv (dc_conn d)) H1) as H2.
    destruct (emit _ (c1, w1)) as [[] [c2 w2]]. cbn [snd] in H2.
    destruct (env_recv e) as [m [err|]].
    + pose proof (close_paired c2 w2) as H3.
      destruct (close (c2, w2)) as [[] s3]. exact H3.
    + exact H2.
  - destruct (closed c) eqn:Hcl.
    + now rewrite Close_closed.
    + unfold Close, bind, get_client, set_closed. cbn -[close]. rewrite Hcl.
      match goal with |- context [close (?c', w)] =>
        pose proof (close_paired c' w) as H3;
        destruct (close (c', w)) as [[] s3] end.
      exact H3.
Qed.

Lemma run_paired ops c w :
  handles_paired (c, w) -> handles_paired (snd (run ops (c, w))).
Proof.
  revert c w. induction ops as [|o ops IH]; intros c w Hp; [exact Hp|].
  cbn [run]. unfold bind.
  pose proof (step_paired o c w Hp) as H1.
  destruct (step o (c, w)) as [r [c1 w1]]. cbn [snd] in H1.
  specialize (IH c1 w1 H1).
  destruct (run ops (c1, w1)) as [rs s2]. exact IH.
Qed.

Lemma connect_session e caller c w d :
  fst (connect e caller (c, w)) = inr d ->
  client (fst (snd (connect e caller (c, w)))) = Some d.
Proof.
  outcome_cases (connect_spec e caller c w) H; cbn [fst snd]; intros [= <-]; auto.
Qed.

Lemma Send_failure_clears e dst b c w d err :
  fst (connect e "derphttp.Client.Send" (c, w)) = inr d ->
  env_send e = Some err ->
  fst (Send e dst b (c, w)) = None /\
  netConn (fst (snd (Send e dst b (c, w)))) = None /\
  client (fst (snd (Send e dst b (c, w)))) = None.
Proof.
  intros Hc He. pose proof (connect_session _ _ _ _ _ Hc) as Hs.
  unfold Send, bind.
  destruct (connect e _ (c, w)) as [r [c1 w1]]. cbn [fst snd] in *. subst r.
  unfold session_Send, bind, emit, ret. cbn -[close]. rewrite He.
  rewrite close_spec, Hs. cbn. auto.
Qed.

Lemma Recv_failure_clears e c w d m err :
  fst (connect e "derphttp.Client.Recv" (c, w)) = inr d ->
  env_recv e = (m, Some err) ->
  fst (Recv e (c, w)) = (m, Some err) /\
  netConn (fst (snd (Recv e (c, w)))) = None /\
  client (fst (snd (Recv e (c, w)))) = None.
Proof.
  intros Hc He. pose proof (connect_session _ _ _ _ _ Hc) as Hs.
  unfold Recv, bind.
  destruct (connect e _ (c, w)) as [r [c1 w1]]. cbn [fst snd] in *. subst r.
  unfold session_Recv, bind, emit, ret. cbn -[close]. rewrite He.
  rewrite close_spec, Hs. cbn. auto.
Qed.

(** ** Send and the error of the session *)

(** C1 (the code departs from the claim).  A client connects, then calls
    Send while the session's send primitive fails with
    "write: broken pipe".  Send tears the connection state down but
    returns nil: the error it returns is the one left by the connection
    step, not the one the session reported. *)
Theorem Send_drops_session_error :
  env_send env_send_fails = Some (ErrCollab "write: broken pipe") /\
  let '(rs, (c', w')) :=
    run [OpConnect env_ok; OpSend env_send_fails 9 [1; 2]]
      (fresh url_plain, w0) in
  rs = [None; None] /\ netConn c' = None /\ client c' = None /\
  drop 6 (trace w') = [EvSessionSend 0 9 [1; 2]; EvConnClose 0].
Proof. vm_compute. repeat split. Qed.

(** The sibling operation reports the error on the same path. *)
Example Recv_reports_session_error :
  fst (run [OpConnect env_ok; OpRecv env_send_fails] (fresh url_plain, w0))
  = [None; Some (ErrCollab "read: connection reset")].
Proof. vm_compute. reflexivity. Qed.

(** ** Failed connection attempts *)

(** C2 (as stated, refuted).  The server answers 200: the attempt fails,
    yet the client still holds a raw transport handle afterwards. *)
Lemma connect_failure_keeps_transport_handle :
  let '(r, (c', w')) := Connect env_status200 (fresh url_plain, w0) in
  r = Some (Errorf
        "derphttp.Client.Connect connect: GET failed: <nil>: not a relay") /\
  netConn c' = Some 0 /\ netConn c' <> netConn (fresh url_plain).
Proof. vm_compute. repeat split. discriminate. Qed.

(** C2 (amended).  Whatever stage of a connection attempt fails on a
    disconnected client, every transport the call opened has been closed
    when it returns, and the session handle and the stored response are
    absent.  The raw transport handle is left as it was when the dial
    fails; after a failure at a later stage it names the transport that
    this call opened and closed. *)
Theorem connect_failure_state e caller c w err s' :
  closed c = false -> client c = None -> resp c = None ->
  connect e caller (c, w) = (inl err, s') ->
  client (fst s') = None /\ resp (fst s') = None /\
  (forall n, next_conn w <= n < next_conn (snd s') ->
             n ∈ closed_conns (snd s')) /\
  match env_dial e with
  | Some _ => netConn (fst s') = netConn c
  | None => netConn (fst s') = Some (next_conn w)
  end.
Proof.
  intros Hcl Hc Hr Heq.
  pose proof (connect_spec e caller c w) as H. rewrite Heq in H.
  cbn [fst snd] in H. inversion H; subst; cbn; try congruence.
  - match goal with Hd : env_dial e = Some _ |- _ => rewrite Hd end.
    repeat split; auto. lia.
  - match goal with Hd : env_dial e = None |- _ => rewrite Hd end.
    repeat split; auto. intros n Hn.
    assert (n = next_conn w) as -> by lia. apply list_elem_of_here.
Qed.

Lemma connect_failure_state_witness :
  closed (fresh url_plain) = false /\ client (fresh url_plain) = None /\
  resp (fresh url_plain) = None /\
  let s' := snd (connect env_status200 "derphttp.Client.Connect"
                   (fresh url_plain, w0)) in
  client (fst s') = None /\ resp (fst s') = None /\
  (forall n, 0 <= n < next_conn (snd s') -> n ∈ closed_conns (snd s')) /\
  netConn (fst s') = Some 0.
Proof.
  do 3 (split; [reflexivity|]).
  exact (connect_failure_state env_status200 "derphttp.Client.Connect"
           (fresh url_plain) w0
           (Errorf "derphttp.Client.Connect connect: GET failed: <nil>: not a relay")
           (snd (connect env_status200 "derphttp.Client.Connect"
                   (fresh url_plain, w0)))
           eq_refl eq_refl eq_refl eq_refl).
Defined.

(** ** The two handles across sequences of operations *)

(** C3 (as stated, refuted).  One Connect against a server that answers
    200 leaves the transport handle set and the session handle absent. *)
Lemma failed_handshake_leaves_handles_unpaired :
  NewClient 7 (inr url_plain) = inr (fresh url_plain) /\
  let '(rs, (c', w')) := run [OpConnect env_status200] (fresh url_plain, w0) in
  netConn c' = Some 0 /\ client c' = None.
Proof. vm_compute. repeat split. Qed.

(** C3 (amended).  After every sequence of public operations on a new
    client, failing ones included: when the session handle is set, the
    transport handle is set too and names the session's transport; when
    the session handle is absent, the transport handle is absent or names
    a transport that has already been closed.  After a Send whose session
    call fails, both handles are absent. *)
Theorem handles_paired_after_operations key u c w ops :
  NewClient key (inr u) = inr c ->
  handles_paired (snd (run ops (c, w))) /\
  (forall e dst b d err,
     fst (connect e "derphttp.Client.Send" (snd (run ops (c, w)))) = inr d ->
     env_send e = Some err ->
     netConn (fst (snd (Send e dst b (snd (run ops (c, w)))))) = None /\
     client (fst (snd (Send e dst b (snd (run ops (c, w)))))) = None).
Proof.
  intros [= <-]. split.
  - apply run_paired. unfold handles_paired. cbn. discriminate.
  - intros e dst b d err Hc He.
    destruct (run ops _) as [rs [c1 w1]]. cbn [snd] in *.
    now destruct (Send_failure_clears e dst b c1 w1 d err Hc He) as (_ & ? & ?).
Qed.

Lemma handles_paired_after_operations_witness :
  NewClient 7 (inr url_plain) = inr (fresh url_plain) /\
  let s := snd (run [OpConnect env_status200; OpConnect env_ok]
                  (fresh url_plain, w0)) in
  handles_paired s /\
  netConn (fst (snd (Send env_send_fails 9 [1; 2] s))) = None /\
  client (fst (snd (Send env_send_fails 9 [1; 2] s))) = None.
Proof.
  split; [reflexivity|].
  pose proof (handles_paired_after_operations 7 url_plain (fresh url_plain) w0
                [OpConnect env_status200; OpConnect env_ok] eq_refl)
    as [H1 H2].
  split; [exact H1|].
  exact (H2 env_send_fails 9 [1; 2] {| dc_key := 7; dc_conn := 1 |}
           (ErrCollab "write: broken pipe") eq_refl eq_refl).
Defined.

(** ** Connect on a connected client *)

Lemma dials_app t evs : dials (t ++ evs) = dials t + dials evs.
Proof. unfold dials. now rewrite filter_app, length_app. Qed.

Lemma handshakes_app t evs : handshakes (t ++ evs) = handshakes t + handshakes evs.
Proof. unfold handshakes. now rewrite filter_app, length_app. Qed.

Lemma connect_events_counts caller u n :
  dials (connect_events caller u n) = 1 /\
  handshakes (connect_events caller u n) = 1.
Proof. split; reflexivity. Qed.

(** C4.  On a client that is connected and not closed, Connect returns nil
    and changes neither the client nor the world: no dial, no handshake,
    no event at all, and the session stays.  When a first Connect on a
    disconnected client succeeds, a second one is such a call, so the two
    together dial once and shake hands once. *)
Theorem Connect_idempotent e e' c w :
  closed c = false ->
  (forall d, client c = Some d -> Connect e (c, w) = (None, (c, w))) /\
  (client c = None ->
   forall s1, Connect e (c, w) = (None, s1) ->
     Connect e' s1 = (None, s1) /\
     dials (trace (snd s1)) = S (dials (trace w)) /\
     handshakes (trace (snd s1)) = S (handshakes (trace w))).
Proof.
  intros Hcl. split.
  - intros d Hd. unfold Connect, bind.
    now rewrite (connect_connected _ _ _ _ d).
  - intros Hc s1. unfold Connect at 1. unfold bind.
    outcome_cases (connect_spec e "derphttp.Client.Connect" c w) H; unfold ret;
      try congruence.
    intros [= <-]. split; [|split].
    + unfold Connect, bind. now erewrite connect_connected.
    + unfold extend. cbn [snd trace]. rewrite dials_app.
      rewrite (proj1 (connect_events_counts _ _ _)). lia.
    + unfold extend. cbn [snd trace]. rewrite handshakes_app.
      rewrite (proj2 (connect_events_counts _ _ _)). lia.
Qed.

Lemma Connect_idempotent_witness :
  closed (fresh url_plain) = false /\
  let s1 := snd (Connect env_ok (fresh url_plain, w0)) in
  Connect env_status200 s1 = (None, s1) /\
  dials (trace (snd s1)) = 1 /\ handshakes (trace (snd s1)) = 1.
Proof.
  split; [reflexivity|].
  exact (proj2 (Connect_idempotent env_ok env_status200 (fresh url_plain) w0
                  eq_refl)
           eq_refl (snd (Connect env_ok (fresh url_plain, w0))) eq_refl).
Defined.

(** ** Close *)

(** C5.  Once Close has returned nil the client is closed, and every later
    Connect, Send, Recv and Close returns ErrClientClosed and leaves the
    client and the world as they are: nothing is dialled, written or
    closed, and the closed mark stays. *)
Theorem Close_terminal c w s1 ops :
  Close (c, w) = (None, s1) ->
  closed (fst s1) = true /\
  run ops s1 = (repeat (Some ErrClientClosed) (length ops), s1).
Proof.
  intros H.
  assert (Hcl : closed (fst s1) = true).
  { destruct (closed c) eqn:Hc.
    - rewrite Close_closed in H by exact Hc. discriminate.
    - rewrite Close_open in H by exact Hc. injection H as <-.
      cbn. now destruct (client c). }
  split; [exact Hcl|].
  destruct s1 as [c1 w1]. now apply run_closed.
Qed.

Lemma Close_terminal_witness :
  let s0 := snd (Connect env_ok (fresh url_plain, w0)) in
  let s1 := snd (Close s0) in
  Close s0 = (None, s1) /\
  closed (fst s1) = true /\
  run [OpConnect env_ok; OpSend env_ok 9 [1; 2]; OpRecv env_ok; OpClose] s1
  = ([Some ErrClientClosed; Some ErrClientClosed; Some ErrClientClosed;
      Some ErrClientClosed], s1).
Proof.
  split; [reflexivity|].
  exact (Close_terminal (connected (fresh url_plain) 101 0)
           (snd (snd (Connect env_ok (fresh url_plain, w0))))
           (snd (Close (snd (Connect env_ok (fresh url_plain, w0)))))
           [OpConnect env_ok; OpSend env_ok 9 [1; 2]; OpRecv env_ok; OpClose]
           eq_refl).
Defined.

(** C10.  Close on a client that has never connected returns nil, marks
    the client closed and touches nothing else: the world is unchanged and
    both handles stay absent.  In a row of Close calls only the first
    returns nil; each later one returns ErrClientClosed. *)
Theorem Close_fresh_client key u c w k :
  NewClient key (inr u) = inr c ->
  Close (c, w) = (None, (with_closed c, w)) /\
  netConn (with_closed c) = None /\ client (with_closed c) = None /\
  run (repeat OpClose (S k)) (c, w)
  = (None :: repeat (Some ErrClientClosed) k, (with_closed c, w)).
Proof.
  intros Hnew.
  assert (Hc : closed c = false /\ client c = None /\ netConn c = None)
    by (injection Hnew as <-; auto).
  destruct Hc as (Hcl & Hc & Hn).
  assert (H : Close (c, w) = (None, (with_closed c, w))).
  { rewrite Close_open by exact Hcl. unfold closing, with_closed.
    now rewrite Hc, Hn. }
  repeat split; try assumption.
  cbn [repeat run]. unfold bind. cbn [step]. rewrite H.
  rewrite run_closed by reflexivity. now rewrite repeat_length.
Qed.

Lemma Close_fresh_client_witness :
  NewClient 7 (inr url_plain) = inr (fresh url_plain) /\
  Close (fresh url_plain, w0) = (None, (with_closed (fresh url_plain), w0)) /\
  run [OpClose; OpClose; OpClose] (fresh url_plain, w0)
  = ([None; Some ErrClientClosed; Some ErrClientClosed],
     (with_closed (fresh url_plain), w0)).
Proof.
  split; [reflexivity|].
  pose proof (Close_fresh_client 7 url_plain (fresh url_plain) w0 2 eq_refl)
    as (H1 & _ & _ & H2).
  exact (conj H1 H2).
Defined.

(** ** Recovery after a failed Send or Recv *)

Lemma step_healthy o c w :
  closed c = false -> client c = None -> healthy o = true ->
  step o (c, w) =
    (None,
     (connected c 101 (next_conn w),
      extend w 1 []
        (connect_events (caller_of o) (url c) (next_conn w)
         ++ session_events o (next_conn w)))).
Proof.
  intros Hcl Hc Hh. destruct o as [e|e dst b|e|]; cbn in Hh; try discriminate.
  - cbn [step]. unfold Connect, bind. rewrite connect_fresh by done.
    unfold ret, extend. cbn. reflexivity.
  - apply andb_prop in Hh as [Hok Hs].
    cbn [step]. unfold Send, bind. rewrite connect_fresh by done.
    destruct (env_send e) eqn:He; [discriminate|].
    unfold session_Send, bind, emit, ret. cbn.
    unfold extend. cbn. now rewrite <- !app_assoc.
  - apply andb_prop in Hh as [Hok Hs].
    cbn [step]. unfold Recv, bind. rewrite connect_fresh by done.
    destruct (env_recv e) as [m [err|]] eqn:He; [discriminate|].
    unfold session_Recv, bind, emit, ret. cbn.
    unfold extend. cbn. now rewrite <- !app_assoc.
Qed.

Lemma step_session_failure o c w d :
  closed c = false -> client c = Some d -> session_fails o = true ->
  fst (snd (step o (c, w))) = disconnected c /\
  next_conn (snd (snd (step o (c, w)))) = next_conn w.
Proof.
  intros Hcl Hc Hf. destruct o as [e|e dst b|e|]; cbn in Hf; try discriminate.
  - destruct (env_send e) as [err|] eqn:He; [|discriminate].
    cbn [step]. rewrite (Send_session_failure e dst b c w d err) by done.
    cbn [fst snd]. split; [reflexivity|].
    unfold closing. now destruct (netConn c).
  - destruct (env_recv e) as [m [err|]] eqn:He; [|discriminate].
    cbn [step]. unfold bind.
    rewrite (Recv_session_failure e c w d m err) by done.
    cbn [fst snd]. split; [reflexivity|].
    unfold closing. now destruct (netConn c).
Qed.

(** C6.  On a client that is not closed and holds a session, let a Send or
    Recv fail in the session.  The call leaves the client with no
    transport handle, no session handle and no stored response.  The next
    Connect, Send or Recv, when it meets no fault, returns nil after one
    new dial and one new handshake, and installs a session over the
    transport that this dial returned, not the transport of the failed
    session. *)
Theorem self_healing o1 o2 c w d :
  closed c = false -> client c = Some d -> dc_conn d < next_conn w ->
  session_fails o1 = true -> healthy o2 = true ->
  let s1 := snd (step o1 (c, w)) in
  let s2 := snd (step o2 s1) in
  (netConn (fst s1) = None /\ client (fst s1) = None /\ resp (fst s1) = None) /\
  fst (step o2 s1) = None /\
  dials (trace (snd s2)) = S (dials (trace (snd s1))) /\
  handshakes (trace (snd s2)) = S (handshakes (trace (snd s1))) /\
  exists d2, client (fst s2) = Some d2 /\ netConn (fst s2) = Some (dc_conn d2) /\
             dc_conn d2 = next_conn (snd s1) /\ dc_conn d2 <> dc_conn d.
Proof.
  intros Hcl Hc Hk Hf Hh s1 s2.
  destruct (step_session_failure o1 c w d Hcl Hc Hf) as [H1 H2].
  fold s1 in H1, H2. subst s2. destruct s1 as [c1 w1]. cbn [fst snd] in *.
  subst c1. split; [now cbn|].
  rewrite step_healthy by done. cbn [fst snd].
  split; [reflexivity|]. unfold extend. cbn [trace].
  rewrite dials_app, handshakes_app, dials_app, handshakes_app.
  destruct (connect_events_counts (caller_of o2) (url (disconnected c))
              (next_conn w1)) as [-> ->].
  assert (dials (session_events o2 (next_conn w1)) = 0) as ->
    by now destruct o2.
  assert (handshakes (session_events o2 (next_conn w1)) = 0) as ->
    by now destruct o2.
  split; [lia|]. split; [lia|].
  eexists. cbn. repeat split. rewrite H2. cbn. unfold Conn in *. lia.
Qed.

Lemma self_healing_witness :
  let c := connected (fresh url_plain) 101 0 in
  let w := snd (snd (Connect env_ok (fresh url_plain, w0))) in
  let s1 := snd (step (OpSend env_send_fails 9 [1; 2]) (c, w)) in
  let s2 := snd (step (OpSend env_ok 9 [3]) s1) in
  (closed c = false /\ client c = Some {| dc_key := 7; dc_conn := 0 |} /\
   0 < next_conn w) /\
  (netConn (fst s1) = None /\ client (fst s1) = None /\ resp (fst s1) = None) /\
  fst (step (OpSend env_ok 9 [3]) s1) = None /\
  dials (trace (snd s2)) = S (dials (trace (snd s1))) /\
  handshakes (trace (snd s2)) = S (handshakes (trace (snd s1))) /\
  exists d2, client (fst s2) = Some d2 /\ netConn (fst s2) = Some (dc_conn d2) /\
             dc_conn d2 = next_conn (snd s1) /\ dc_conn d2 <> 0.
Proof.
  split; [repeat split; cbn; lia|].
  exact (self_healing (OpSend env_send_fails 9 [1; 2]) (OpSend env_ok 9 [3])
           (connected (fresh url_plain) 101 0)
           (snd (snd (Connect env_ok (fresh url_plain, w0))))
           {| dc_key := 7; dc_conn := 0 |}
           eq_refl eq_refl (le_n 1) eq_refl eq_refl).
Defined.

(** ** The upgrade handshake *)

(** C7.  When the handshake reaches a response whose status is not 101,
    connect returns an error whose message ends with the body of the
    response; the error value formatted into the message is the nil that
    the read left behind, printed as "<nil>".  And connect returns a new
    session only after a response with status 101. *)
Theorem upgrade_rejection_reported e caller c w :
  closed c = false -> client c = None ->
  (forall r,
     env_dial e = None -> env_newreq e = None -> env_write e = None ->
     env_flush e = None -> env_read e = inr r -> StatusCode r <> 101%Z ->
     fst (connect e caller (c, w))
     = inl (Errorf (caller +:+ " connect: GET failed: <nil>: " +:+ Body r))) /\
  (forall d, fst (connect e caller (c, w)) = inr d ->
     exists r, env_read e = inr r /\ StatusCode r = 101%Z).
Proof.
  intros Hcl Hc. split.
  - intros r Hd Hq Hw Hf Hr Hs.
    unfold_ops. cbn. rewrite Hcl, Hc.
    destruct (dial_target (url c)) as [tls addr].
    rewrite Hd. cbn. rewrite Hq, Hw. cbn. rewrite Hf. cbn. rewrite Hr. cbn.
    apply Z.eqb_neq in Hs. unfold StatusSwitchingProtocols. rewrite Hs.
    reflexivity.
  - intros d. outcome_cases (connect_spec e caller c w) H; cbn [fst]; try congruence.
    intros _.
    match goal with Hok : connect_ok e = true |- _ =>
      apply connect_ok_inv in Hok as (_ & _ & _ & _ & _ & r & Hr & Hs) end.
    eauto.
Qed.

Lemma upgrade_rejection_reported_witness :
  closed (fresh url_plain) = false /\ client (fresh url_plain) = None /\
  fst (connect env_status200 "derphttp.Client.Connect" (fresh url_plain, w0))
  = inl (Errorf
      "derphttp.Client.Connect connect: GET failed: <nil>: not a relay").
Proof.
  do 2 (split; [reflexivity|]).
  refine (proj1 (upgrade_rejection_reported env_status200
                   "derphttp.Client.Connect" (fresh url_plain) w0
                   eq_refl eq_refl)
            resp200 eq_refl eq_refl eq_refl eq_refl eq_refl _).
  discriminate.
Defined.

Lemma upgrade_request_header u :
  Header (upgrade_request u) !! "Upgrade" = Some ["WebSocket"] /\
  Header (upgrade_request u) !! "Connection" = Some ["Upgrade"] /\
  dom (Header (upgrade_request u)) = {["Upgrade"; "Connection"]}.
Proof.
  unfold upgrade_request. cbn [Header]. split; [|split].
  - rewrite lookup_insert_ne by discriminate. apply lookup_insert_eq.
  - apply lookup_insert_eq.
  - rewrite !dom_insert_L, dom_empty_L. set_solver.
Qed.

(** C8.  Once the dial has succeeded and the request is built, connect
    writes one request: a GET for the client's URL (hence its path) whose
    header holds Upgrade: WebSocket, Connection: Upgrade and no other
    field.  When the response is read, the session is constructed if and
    only if its status is 101. *)
Theorem upgrade_request_and_status e caller c w :
  closed c = false -> client c = None ->
  env_dial e = None -> env_newreq e = None ->
  exists (evs : list Event) (req : Request),
    trace (snd (snd (connect e caller (c, w)))) = (trace w ++ evs)%list /\
    filter is_handshake_write evs = [EvWrite (next_conn w) req] /\
    (Method req = "GET" /\ ReqURL req = url c /\
     Path (ReqURL req) = Path (url c) /\
     Header req !! "Upgrade" = Some ["WebSocket"] /\
     Header req !! "Connection" = Some ["Upgrade"] /\
     dom (Header req) = {["Upgrade"; "Connection"]}) /\
    (forall r,
       env_write e = None -> env_flush e = None -> env_read e = inr r ->
       (EvNewSession (next_conn w) ∈ evs <-> StatusCode r = 101%Z)).
Proof.
  intros Hcl Hc Hd Hq.
  assert (Hreq : Method (upgrade_request (url c)) = "GET" /\
                 ReqURL (upgrade_request (url c)) = url c /\
                 Path (ReqURL (upgrade_request (url c))) = Path (url c) /\
                 Header (upgrade_request (url c)) !! "Upgrade"
                 = Some ["WebSocket"] /\
                 Header (upgrade_request (url c)) !! "Connection"
                 = Some ["Upgrade"] /\
                 dom (Header (upgrade_request (url c)))
                 = {["Upgrade"; "Connection"]}).
  { do 3 (split; [reflexivity|]). apply upgrade_request_header. }
  unfold_ops. cbn. rewrite Hcl, Hc.
  destruct (dial_target (url c)) as [tls addr].
  rewrite Hd. cbn. rewrite Hq. cbn.
  change {| Method := "GET"; ReqURL := url c;
            Header := <["Connection":=["Upgrade"]]>
                        (<["Upgrade":=["WebSocket"]]> ∅) |}
    with (upgrade_request (url c)).
  destruct (env_write e) as [ew|]; cbn;
    [|destruct (env_flush e) as [ef|]; cbn;
      [|destruct (env_read e) as [er|r]; cbn;
        [|destruct (StatusCode r =? StatusSwitchingProtocols)%Z eqn:Hs; cbn;
          [destruct (env_newclient e); cbn|]]]];
    (eexists; exists (upgrade_request (url c));
     split; [rewrite <- ?app_assoc; cbn; reflexivity|];
     split; [reflexivity|]; split; [exact Hreq|]);
    intros r' Hw' Hf' Hr'; try discriminate;
    injection Hr' as <-;
    rewrite list_elem_of_In; cbn;
    (apply Z.eqb_eq in Hs || apply Z.eqb_neq in Hs);
    unfold StatusSwitchingProtocols in Hs;
    intuition (try discriminate; try congruence).
Qed.

Lemma upgrade_request_and_status_witness :
  closed (fresh url_plain) = false /\ client (fresh url_plain) = None /\
  env_dial env_status200 = None /\ env_newreq env_status200 = None /\
  exists (evs : list Event) (req : Request),
    trace (snd (snd (connect env_status200 "derphttp.Client.Connect"
                       (fresh url_plain, w0)))) = (trace w0 ++ evs)%list /\
    filter is_handshake_write evs = [EvWrite 0 req] /\
    (Method req = "GET" /\ ReqURL req = url_plain /\
     Path (ReqURL req) = "/derp" /\
     Header req !! "Upgrade" = Some ["WebSocket"] /\
     Header req !! "Connection" = Some ["Upgrade"] /\
     dom (Header req) = {["Upgrade"; "Connection"]}) /\
    (forall r,
       env_write env_status200 = None -> env_flush env_status200 = None ->
       env_read env_status200 = inr r ->
       (EvNewSession 0 ∈ evs <-> StatusCode r = 101%Z)).
Proof.
  do 4 (split; [reflexivity|]).
  exact (upgrade_request_and_status env_status200 "derphttp.Client.Connect"
           (fresh url_plain) w0 eq_refl eq_refl eq_refl eq_refl).
Defined.

(** ** The dial address *)

Lemma cut_last_colon_none s :
  GoStd.has_colon s = false -> GoStd.cut_last_colon s = None.
Proof.
  induction s as [|a s IH]; [reflexivity|].
  cbn. intros [Ha Hs]%orb_false_elim. now rewrite (IH Hs), Ha.
Qed.

Lemma Port_without_colon u :
  GoStd.has_colon (Host u) = false -> Port u = "".
Proof.
  intros H. unfold Port, GoStd.splitHostPort.
  rewrite cut_last_colon_none by exact H.
  now destruct (_ && _).
Qed.

Lemma Port_explicit_has_colon u :
  Port u <> "" -> GoStd.has_colon (Host u) = true.
Proof.
  intros H. destruct (GoStd.has_colon (Host u)) eqn:Hc; [reflexivity|].
  now rewrite Port_without_colon in H.
Qed.

(** A scheme other than https: a plain dial to the URL's Host field. *)
Lemma dial_target_plain u :
  Scheme u <> "https" -> dial_target u = (false, Host u).
Proof.
  intros H. unfold dial_target.
  destruct (String.eqb_spec (Scheme u) "https"); [contradiction|reflexivity].
Qed.

(** https and no port in the URL: a TLS dial to host:443. *)
Lemma dial_target_tls_default_port u :
  Scheme u = "https" -> GoStd.has_colon (Host u) = false ->
  dial_target u = (true, Host u +:+ ":443").
Proof.
  intros Hs Hc. unfold dial_target. rewrite Hs. cbn.
  rewrite Port_without_colon by exact Hc. cbn.
  unfold GoStd.JoinHostPort. now rewrite Hc.
Qed.

(** https and a port in the URL: the Host field, which already holds the
    port, is bracketed and the port appended once more. *)
Lemma dial_target_tls_explicit_port u :
  Scheme u = "https" -> Port u <> "" ->
  dial_target u = (true, "[" +:+ Host u +:+ "]:" +:+ Port u).
Proof.
  intros Hs Hp. unfold dial_target. rewrite Hs. cbn.
  destruct (String.eqb_spec (Port u) ""); [contradiction|].
  unfold GoStd.JoinHostPort. now rewrite Port_explicit_has_colon.
Qed.

(** C9 (the code departs from the claim).  For the endpoint
    https://relay.example:443/derp the descriptor's host is relay.example
    and its port 443, so the claim's address is relay.example:443; connect
    dials [relay.example:443]:443. *)
Theorem dial_address_with_explicit_port :
  Hostname url_tls_port = "relay.example" /\ Port url_tls_port = "443" /\
  dial_target url_tls_port = (true, "[relay.example:443]:443") /\
  (trace (snd (snd (Connect env_ok (fresh url_tls_port, w0))))) !! 1
  = Some (EvDial true "[relay.example:443]:443" (Some 0)).
Proof. vm_compute. repeat split. Qed.

(** Without a port in the URL the address is the one the claim gives. *)
Example dial_address_default_port :
  dial_target url_tls_noport = (true, "relay.example:443") /\
  dial_target url_plain = (false, "relay.example:80").
Proof. vm_compute. repeat split. Qed.

(** * Further properties of the client *)

(** ** One connection attempt, stage by stage *)

Lemma connect_attempt e caller c w :
  closed c = false -> client c = None ->
  fst (connect e caller (c, w))
  = match first_fault e with
    | Some err => inl (wrapped caller err)
    | None => inr {| dc_key := privateKey c; dc_conn := next_conn w |}
    end /\
  trace (snd (snd (connect e caller (c, w))))
  = (trace w
     ++ EvLog (caller +:+ ": connecting")
     :: match env_dial e with
        | Some _ =>
            [EvDial (fst (dial_target (url c))) (snd (dial_target (url c)))
               None]
        | None =>
            EvDial (fst (dial_target (url c))) (snd (dial_target (url c)))
              (Some (next_conn w))
            :: handshake_events e (url c) (next_conn w)
            ++ match first_fault e with
               | Some _ => [EvConnClose (next_conn w)]
               | None => []
               end
        end)%list.
Proof.
  intros Hcl Hc. unfold first_fault, handshake_events, wrapped.
  unfold_ops. cbn. rewrite Hcl, Hc.
  destruct (dial_target (url c)) as [tls addr]. cbn.
  change {| Method := "GET"; ReqURL := url c;
            Header := <["Connection":=["Upgrade"]]>
                        (<["Upgrade":=["WebSocket"]]> ∅) |}
    with (upgrade_request (url c)).
  destruct (env_dial e); cbn;
    [|destruct (env_newreq e); cbn;
      [|destruct (env_write e); cbn;
        [|destruct (env_flush e); cbn;
          [|destruct (env_read e) as [er|r]; cbn;
            [|destruct (StatusCode r =? StatusSwitchingProtocols)%Z; cbn;
              [destruct (env_newclient e); cbn|]]]]]];
    (split; [reflexivity|]); rewrite <- ?app_assoc; reflexivity.
Qed.

Lemma first_fault_ok e : first_fault e = None <-> connect_ok e = true.
Proof.
  unfold first_fault, connect_ok.
  destruct (env_dial e), (env_newreq e), (env_write e), (env_flush e),
    (env_read e) as [|r]; try (split; discriminate).
  all: destruct (StatusCode r =? StatusSwitchingProtocols)%Z;
    destruct (env_newclient e); split; (reflexivity || discriminate).
Qed.

(** ** Send and Recv in terms of the connection step *)

Lemma Send_unfold e dst b c w :
  Send e dst b (c, w) =
    match connect e "derphttp.Client.Send" (c, w) with
    | (inl err, s1) => (Some err, s1)
    | (inr d, (c1, w1)) =>
        let w2 := extend w1 0 [] [EvSessionSend (dc_conn d) dst b] in
        (None,
         match env_send e with
         | Some _ =>
             (match client c1 with Some _ => disconnected c1 | None => c1 end,
              closing c1 w2)
         | None => (c1, w2)
         end)
    end.
Proof.
  unfold Send, bind.
  destruct (connect e _ (c, w)) as [[err|d] [c1 w1]]; [reflexivity|].
  unfold session_Send, bind, emit, ret. cbn -[close].
  destruct (env_send e); [|reflexivity].
  now rewrite close_spec.
Qed.

Lemma Recv_unfold e c w :
  Recv e (c, w) =
    match connect e "derphttp.Client.Recv" (c, w) with
    | (inl err, s1) => ((None, Some err), s1)
    | (inr d, (c1, w1)) =>
        let w2 := extend w1 0 [] [EvSessionRecv (dc_conn d)] in
        (env_recv e,
         match snd (env_recv e) with
         | Some _ =>
             (match client c1 with Some _ => disconnected c1 | None => c1 end,
              closing c1 w2)
         | None => (c1, w2)
         end)
    end.
Proof.
  unfold Recv, bind.
  destruct (connect e _ (c, w)) as [[err|d] [c1 w1]]; [reflexivity|].
  unfold session_Recv, bind, emit, ret. cbn -[close].
  destruct (env_recv e) as [m [err|]]; [|reflexivity].
  now rewrite close_spec.
Qed.

(** A property of states kept by the connection step, by teardown, by the
    session calls and by the closed mark is kept by every operation. *)
Lemma step_preserves (P : St -> Prop) :
  (forall e caller c w, P (c, w) -> P (snd (connect e caller (c, w)))) ->
  (forall c w, P (c, w) -> P (snd (close (c, w)))) ->
  (forall ev c w, is_session_call ev = true ->
                  P (c, w) -> P (snd (emit ev (c, w)))) ->
  (forall c w, P (c, w) -> P (snd (set_closed (c, w)))) ->
  forall o c w, P (c, w) -> P (snd (step o (c, w))).
Proof.
  intros Hconn Hclose Hemit Hmark o c w Hp.
  destruct o as [e|e dst b|e|]; cbn [step].
  - unfold Connect, bind. specialize (Hconn e "derphttp.Client.Connect" c w Hp).
    destruct (connect e _ (c, w)) as [r s1]. exact Hconn.
  - unfold Send, bind. specialize (Hconn e "derphttp.Client.Send" c w Hp).
    destruct (connect e _ (c, w)) as [[err|d] [c1 w1]]; cbn [snd] in *;
      [exact Hconn|].
    unfold session_Send, bind, ret.
    specialize (Hemit (EvSessionSend (dc_conn d) dst b) c1 w1 eq_refl Hconn).
    destruct (emit _ (c1, w1)) as [[] [c2 w2]]. cbn [snd] in Hemit.
    destruct (env_send e); [|exact Hemit].
    specialize (Hclose c2 w2 Hemit).
    destruct (close (c2, w2)) as [[] s3]. exact Hclose.
  - unfold Recv, bind. specialize (Hconn e "derphttp.Client.Recv" c w Hp).
    destruct (connect e _ (c, w)) as [[err|d] [c1 w1]]; cbn [snd] in *;
      [exact Hconn|].
    unfold session_Recv, bind, ret.
    specialize (Hemit (EvSessionRecv (dc_conn d)) c1 w1 eq_refl Hconn).
    destruct (emit _ (c1, w1)) as [[] [c2 w2]]. cbn [snd] in Hemit.
    destruct (env_recv e) as [m [err|]]; [|exact Hemit].
    specialize (Hclose c2 w2 Hemit).
    destruct (close (c2, w2)) as [[] s3]. exact Hclose.
  - unfold Close, bind, get_client. cbn [fst].
    destruct (closed c); [exact Hp|].
    specialize (Hmark c w Hp).
    destruct (set_closed (c, w)) as [[] [c1 w1]]. cbn [snd] in Hmark.
    specialize (Hclose c1 w1 Hmark).
    destruct (close (c1, w1)) as [[] s2]. exact Hclose.
Qed.

Lemma run_preserves (P : St -> Prop) :
  (forall o c w, P (c, w) -> P (snd (step o (c, w)))) ->
  forall ops c w, P (c, w) -> P (snd (run ops (c, w))).
Proof.
  intros Hstep ops. induction ops as [|o ops IH]; intros c w Hp; [exact Hp|].
  cbn [run]. unfold bind. specialize (Hstep o c w Hp).
  destruct (step o (c, w)) as [r [c1 w1]]. cbn [snd] in Hstep.
  specialize (IH c1 w1 Hstep).
  destruct (run ops (c1, w1)) as [rs s2]. exact IH.
Qed.

(** ** Recv on an established session *)

(** X1.  When the connection step of Recv yields a session, Recv returns
    the message and the error of the session's Recv as they are.  If that
    error is not nil, Recv leaves the client without transport handle,
    session handle and stored response, and, the handles being paired
    before the call, the transport of the session is closed. *)
Theorem Recv_reports_and_tears_down e c w d :
  handles_paired (c, w) ->
  fst (connect e "derphttp.Client.Recv" (c, w)) = inr d ->
  fst (Recv e (c, w)) = env_recv e /\
  (forall err, snd (env_recv e) = Some err ->
     netConn (fst (snd (Recv e (c, w)))) = None /\
     client (fst (snd (Recv e (c, w)))) = None /\
     resp (fst (snd (Recv e (c, w)))) = None /\
     dc_conn d ∈ closed_conns (snd (snd (Recv e (c, w))))).
Proof.
  intros Hp Hd.
  pose proof (connect_session _ _ _ _ _ Hd) as Hs.
  pose proof (connect_paired e "derphttp.Client.Recv" c w Hp) as Hp1.
  rewrite Recv_unfold.
  destruct (connect e _ (c, w)) as [r [c1 w1]]. cbn [fst snd] in *. subst r.
  cbn zeta. split; [reflexivity|].
  intros err Herr. rewrite Herr, Hs. cbn [fst snd].
  repeat split.
  unfold handles_paired in Hp1. rewrite Hs in Hp1.
  unfold closing. rewrite Hp1. cbn. apply list_elem_of_here.
Qed.

Lemma Recv_reports_and_tears_down_witness :
  let s := snd (Connect env_ok (fresh url_plain, w0)) in
  handles_paired s /\
  fst (connect env_send_fails "derphttp.Client.Recv" s)
  = inr {| dc_key := 7; dc_conn := 0 |} /\
  fst (Recv env_send_fails s)
  = (None, Some (ErrCollab "read: connection reset")) /\
  client (fst (snd (Recv env_send_fails s))) = None /\
  0 ∈ closed_conns (snd (snd (Recv env_send_fails s))).
Proof.
  assert (Hp : handles_paired (snd (Connect env_ok (fresh url_plain, w0))))
    by reflexivity.
  split; [exact Hp|]. split; [reflexivity|].
  destruct (Recv_reports_and_tears_down env_send_fails
              (connected (fresh url_plain) 101 0)
              (snd (snd (Connect env_ok (fresh url_plain, w0))))
              {| dc_key := 7; dc_conn := 0 |} Hp eq_refl) as [H1 H2].
  split; [exact H1|].
  destruct (H2 (ErrCollab "read: connection reset") eq_refl)
    as (_ & Hc & _ & Hn).
  exact (conj Hc Hn).
Defined.

(** ** A session in use *)

Lemma step_session_ok o c w d :
  closed c = false -> client c = Some d -> session_ok o = true ->
  step o (c, w) = (None, (c, extend w 0 [] (session_events o (dc_conn d)))).
Proof.
  intros Hcl Hc Hok.
  assert (Hw : extend w 0 [] [] = w).
  { unfold extend. cbn. rewrite app_nil_r. now destruct w. }
  destruct o as [e|e dst b|e|]; cbn in Hok; try discriminate; cbn [step].
  - unfold Connect, bind. rewrite (connect_connected _ _ _ _ d) by done.
    cbn [session_events]. now rewrite Hw.
  - rewrite Send_unfold, (connect_connected _ _ _ _ d) by done.
    cbn zeta. now destruct (env_send e).
  - unfold bind. rewrite Recv_unfold, (connect_connected _ _ _ _ d) by done.
    cbn zeta. destruct (env_recv e) as [m [err|]]; [discriminate|].
    reflexivity.
Qed.

(** X2.  On a client that is not closed and holds a session, a sequence of
    Connect, Send and Recv calls whose session calls all succeed returns
    nil every time and leaves the client as it is: every call goes to the
    same session, over the same transport, in order, and nothing is
    dialled or closed. *)
Theorem session_is_stable ops c w d :
  closed c = false -> client c = Some d ->
  forallb session_ok ops = true ->
  run ops (c, w)
  = (repeat None (length ops),
     (c, extend w 0 []
           (flat_map (fun o => session_events o (dc_conn d)) ops))).
Proof.
  intros Hcl Hc. revert w. induction ops as [|o ops IH]; intros w Hok.
  - cbn. unfold ret, extend. cbn. rewrite app_nil_r. now destruct w.
  - cbn in Hok. apply andb_prop in Hok as [Ho Hops].
    cbn [run]. unfold bind. rewrite (step_session_ok o c w d) by done.
    rewrite IH by exact Hops. unfold ret, extend. cbn.
    now rewrite <- app_assoc.
Qed.

Lemma session_is_stable_witness :
  let s := snd (Connect env_ok (fresh url_plain, w0)) in
  closed (fst s) = false /\
  client (fst s) = Some {| dc_key := 7; dc_conn := 0 |} /\
  run [OpSend env_ok 9 [1; 2]; OpRecv env_ok; OpConnect env_status200;
       OpSend env_ok 8 []] s
  = ([None; None; None; None],
     (fst s,
      extend (snd s) 0 []
        [EvSessionSend 0 9 [1; 2]; EvSessionRecv 0; EvSessionSend 0 8 []])).
Proof.
  do 2 (split; [reflexivity|]).
  exact (session_is_stable
           [OpSend env_ok 9 [1; 2]; OpRecv env_ok; OpConnect env_status200;
            OpSend env_ok 8 []]
           (connected (fresh url_plain) 101 0)
           (snd (snd (Connect env_ok (fresh url_plain, w0))))
           {| dc_key := 7; dc_conn := 0 |} eq_refl eq_refl eq_refl).
Defined.

(** ** Counting dials and session calls *)

Lemma session_calls_app t evs :
  session_calls (t ++ evs) = session_calls t + session_calls evs.
Proof. unfold session_calls. now rewrite filter_app, length_app. Qed.

Lemma dials_cons ev t :
  dials (ev :: t) = (if is_dial ev then 1 else 0) + dials t.
Proof. now destruct ev. Qed.

Lemma dials_single ev : dials [ev] = if is_dial ev then 1 else 0.
Proof. now destruct ev. Qed.

Lemma session_calls_cons ev t :
  session_calls (ev :: t) = (if is_session_call ev then 1 else 0) + session_calls t.
Proof. now destruct ev. Qed.

Lemma handshake_events_counts e u n :
  dials (handshake_events e u n) = 0 /\
  session_calls (handshake_events e u n) = 0.
Proof.
  unfold handshake_events.
  destruct (env_newreq e), (env_write e), (env_flush e),
    (env_read e) as [|r]; try (split; reflexivity).
  destruct (StatusCode r =? StatusSwitchingProtocols)%Z; split; reflexivity.
Qed.

Lemma connect_counts e caller c w :
  dials (trace (snd (snd (connect e caller (c, w)))))
  = dials (trace w) + (if attempts c then 1 else 0) /\
  session_calls (trace (snd (snd (connect e caller (c, w)))))
  = session_calls (trace w).
Proof.
  unfold attempts. destruct (closed c) eqn:Hcl.
  { rewrite connect_closed by done. cbn. lia. }
  destruct (client c) as [d|] eqn:Hc.
  { rewrite (connect_connected _ _ _ _ d) by done. cbn. lia. }
  destruct (connect_attempt e caller c w Hcl Hc) as [_ ->].
  destruct (handshake_events_counts e (url c) (next_conn w)) as [Hd Hs].
  rewrite dials_app, session_calls_app, dials_cons, session_calls_cons.
  assert (Hnil : dials [] = 0 /\ session_calls [] = 0) by (split; reflexivity).
  destruct Hnil as [Hn1 Hn2].
  destruct (env_dial e); cbn [is_dial is_session_call negb andb].
  - rewrite dials_cons, session_calls_cons, Hn1, Hn2.
    cbn [is_dial is_session_call]. lia.
  - rewrite dials_cons, session_calls_cons, dials_app, session_calls_app.
    rewrite Hd, Hs. cbn [is_dial is_session_call].
    destruct (first_fault e);
      rewrite ?dials_cons, ?session_calls_cons, Hn1, Hn2;
      cbn [is_dial is_session_call]; lia.
Qed.

Lemma closing_counts c w :
  dials (trace (closing c w)) = dials (trace w) /\
  session_calls (trace (closing c w)) = session_calls (trace w).
Proof.
  unfold closing. destruct (netConn c); [|split; reflexivity].
  unfold extend. cbn [trace]. rewrite dials_app, session_calls_app.
  change (dials [EvConnClose c0]) with 0.
  change (session_calls [EvConnClose c0]) with 0. lia.
Qed.

(** ** A connection step that fails *)

(** X3.  When the connection step of Send or Recv fails, the call returns
    the error of that step (Recv with a nil message) and makes no call to
    the session. *)
Theorem failed_connection_skips_session e c w :
  (forall dst b err,
     fst (connect e "derphttp.Client.Send" (c, w)) = inl err ->
     fst (Send e dst b (c, w)) = Some err /\
     session_calls (trace (snd (snd (Send e dst b (c, w)))))
     = session_calls (trace w)) /\
  (forall err,
     fst (connect e "derphttp.Client.Recv" (c, w)) = inl err ->
     fst (Recv e (c, w)) = (None, Some err) /\
     session_calls (trace (snd (snd (Recv e (c, w)))))
     = session_calls (trace w)).
Proof.
  split.
  - intros dst b err Hc.
    pose proof (proj2 (connect_counts e "derphttp.Client.Send" c w)) as Hn.
    rewrite Send_unfold.
    destruct (connect e _ (c, w)) as [r [c1 w1]]. cbn [fst snd] in *.
    subst r. cbn [fst snd]. auto.
  - intros err Hc.
    pose proof (proj2 (connect_counts e "derphttp.Client.Recv" c w)) as Hn.
    rewrite Recv_unfold.
    destruct (connect e _ (c, w)) as [r [c1 w1]]. cbn [fst snd] in *.
    subst r. cbn [fst snd]. auto.
Qed.

Lemma failed_connection_skips_session_witness :
  fst (connect env_status200 "derphttp.Client.Send" (fresh url_plain, w0))
  = inl (Errorf "derphttp.Client.Send connect: GET failed: <nil>: not a relay") /\
  fst (Send env_status200 9 [1; 2] (fresh url_plain, w0))
  = Some (Errorf "derphttp.Client.Send connect: GET failed: <nil>: not a relay") /\
  session_calls (trace (snd (snd (Send env_status200 9 [1; 2]
                                    (fresh url_plain, w0))))) = 0.
Proof.
  split; [reflexivity|].
  exact (proj1 (failed_connection_skips_session env_status200
                  (fresh url_plain) w0)
           9 [1; 2]
           (Errorf "derphttp.Client.Send connect: GET failed: <nil>: not a relay")
           eq_refl).
Defined.

(** X4.  On a client that is not closed and has no session, Connect, Send
    and Recv go through the stages of a connection attempt in order (dial,
    request, write, flush, read, status, session) and return the error of
    the first stage that fails, prefixed with the name of the operation
    and " connect: "; what later stages would have answered plays no part. *)
Theorem first_fault_reported o e c w err :
  closed c = false -> client c = None ->
  op_env o = Some e -> first_fault e = Some err ->
  fst (step o (c, w))
  = Some (Errorf (caller_of o +:+ " connect: " +:+ Error err)).
Proof.
  intros Hcl Hc Ho Hf.
  destruct o as [e'|e' dst b|e'|]; cbn in Ho; try discriminate;
    injection Ho as ->; cbn [step caller_of].
  - unfold Connect, bind.
    pose proof (proj1 (connect_attempt e "derphttp.Client.Connect" c w Hcl Hc))
      as H. rewrite Hf in H.
    destruct (connect e _ (c, w)) as [r s1]. cbn [fst] in H. now subst r.
  - rewrite Send_unfold.
    pose proof (proj1 (connect_attempt e "derphttp.Client.Send" c w Hcl Hc))
      as H. rewrite Hf in H.
    destruct (connect e _ (c, w)) as [r s1]. cbn [fst] in H. now subst r.
  - unfold bind. rewrite Recv_unfold.
    pose proof (proj1 (connect_attempt e "derphttp.Client.Recv" c w Hcl Hc))
      as H. rewrite Hf in H.
    destruct (connect e _ (c, w)) as [r s1]. cbn [fst] in H. now subst r.
Qed.

Lemma first_fault_reported_witness :
  closed (fresh url_plain) = false /\ client (fresh url_plain) = None /\
  first_fault env_write_fails = Some (ErrCollab "write: timeout") /\
  fst (step (OpRecv env_write_fails) (fresh url_plain, w0))
  = Some (Errorf "derphttp.Client.Recv connect: write: timeout").
Proof.
  do 3 (split; [reflexivity|]).
  exact (first_fault_reported (OpRecv env_write_fails) env_write_fails
           (fresh url_plain) w0 (ErrCollab "write: timeout")
           eq_refl eq_refl eq_refl eq_refl).
Defined.

(** X5.  An operation dials exactly once when it is a Connect, Send or
    Recv on a client that is not closed and has no session, and not at all
    otherwise: no operation dials twice, whatever fails. *)
Theorem one_dial_per_attempt o c w :
  dials (trace (snd (snd (step o (c, w)))))
  = dials (trace w)
    + match op_env o with
      | Some _ => if attempts c then 1 else 0
      | None => 0
      end.
Proof.
  destruct o as [e|e dst b|e|]; cbn [step op_env].
  - unfold Connect, bind.
    pose proof (proj1 (connect_counts e "derphttp.Client.Connect" c w)) as H.
    destruct (connect e _ (c, w)) as [r s1]. exact H.
  - rewrite Send_unfold.
    pose proof (proj1 (connect_counts e "derphttp.Client.Send" c w)) as H.
    destruct (connect e _ (c, w)) as [[err|d] [c1 w1]]; cbn [fst snd] in *;
      [exact H|].
    destruct (env_send e); cbn [snd];
      rewrite ?(proj1 (closing_counts _ _)); unfold extend; cbn [trace];
      rewrite dials_app, dials_single; cbn [is_dial]; lia.
  - unfold bind, ret. rewrite Recv_unfold.
    pose proof (proj1 (connect_counts e "derphttp.Client.Recv" c w)) as H.
    destruct (connect e _ (c, w)) as [[err|d] [c1 w1]]; cbn [fst snd] in *;
      [exact H|].
    destruct (snd (env_recv e)); cbn [snd];
      rewrite ?(proj1 (closing_counts _ _)); unfold extend; cbn [trace];
      rewrite dials_app, dials_single; cbn [is_dial]; lia.
  - destruct (closed c) eqn:Hcl.
    + rewrite Close_closed by exact Hcl. cbn. lia.
    + rewrite Close_open by exact Hcl. cbn [snd].
      rewrite (proj1 (closing_counts _ _)). lia.
Qed.

(** ** Transports that are open *)

Lemma connect_tidy e caller c w :
  tidy (c, w) -> tidy (snd (connect e caller (c, w))).
Proof.
  intros Ht. outcome_cases (connect_spec e caller c w) H; cbn [snd];
    try exact Ht;
    unfold tidy, handles_paired, open_transport in *; cbn in *;
    destruct Ht as (Hp & Hb & Ho);
    match goal with Hc : client _ = None |- _ => rewrite Hc in * end.
  - split; [|split].
    + intros n [= <-]. apply list_elem_of_here.
    + intros n [->|Hn]%elem_of_cons; [lia|]. apply Hb in Hn. lia.
    + intros n. split.
      * intros [Hlt [Hne Hnot]%not_elem_of_cons].
        apply (proj1 (Ho n)). split; [lia|exact Hnot].
      * intros (d & [=] & _).
  - split; [reflexivity|]. split.
    + intros n Hn%Hb. lia.
    + intros n. split.
      * intros [Hlt Hnot].
        destruct (decide (n = next_conn w)) as [->|Hne].
        { eexists. split; reflexivity. }
        destruct (proj1 (Ho n)) as (d & [=] & _). split; [lia|exact Hnot].
      * intros (d & [= <-] & <-). cbn. split; [lia|].
        intros Hin%Hb. lia.
Qed.

Lemma close_tidy c w : tidy (c, w) -> tidy (snd (close (c, w))).
Proof.
  intros Ht. rewrite close_spec. cbn [snd].
  unfold tidy, handles_paired, open_transport, closing in *.
  destruct Ht as (Hp & Hb & Ho).
  destruct (client c) as [d|] eqn:Hc.
  - rewrite Hp. cbn.
    assert (Hd : dc_conn d < next_conn w /\ dc_conn d ∉ closed_conns w)
      by (apply Ho; eauto).
    split; [discriminate|]. split.
    + intros n [->|Hn]%elem_of_cons; [tauto|]. now apply Hb.
    + intros n. split.
      * intros [Hlt [Hne Hnot]%not_elem_of_cons].
        destruct (proj1 (Ho n)) as (d' & [= <-] & Hd'); [tauto|].
        congruence.
      * intros (d' & [=] & _).
  - rewrite Hc. destruct (netConn c) as [n0|] eqn:Hn; cbn.
    + specialize (Hp n0 eq_refl). split; [|split].
      * intros n [= <-]. apply list_elem_of_here.
      * intros n [->|Hin]%elem_of_cons; now apply Hb.
      * intros n. split.
        -- intros [Hlt [Hne Hnot]%not_elem_of_cons]. apply Ho. tauto.
        -- intros (d' & [=] & _).
    + split; [discriminate|]. split; [exact Hb|exact Ho].
Qed.

Lemma step_tidy o c w : tidy (c, w) -> tidy (snd (step o (c, w))).
Proof.
  apply (step_preserves tidy).
  - apply connect_tidy.
  - apply close_tidy.
  - intros ev c0 w0 _ H. exact H.
  - intros c0 w0 H. exact H.
Qed.

Lemma fresh_tidy key u c w :
  NewClient key (inr u) = inr c -> settled w -> tidy (c, w).
Proof.
  intros [= <-] Hs. unfold tidy, handles_paired, open_transport. cbn.
  split; [discriminate|]. split.
  - intros n Hn. now apply Hs.
  - intros n. split.
    + intros [Hlt Hnot]. destruct Hnot. now apply Hs.
    + intros (d & [=] & _).
Qed.

(** X6.  Start from a new client in a world where every transport dialled
    so far is closed.  After every sequence of operations, the transports
    that are dialled and not closed are just the transport of the client's
    session, when it has one, and none otherwise: a failed attempt or a
    teardown leaves no transport open, and two are never open together. *)
Theorem open_transports_are_the_session key u c w ops n :
  NewClient key (inr u) = inr c -> settled w ->
  open_transport (snd (snd (run ops (c, w)))) n <->
  exists d, client (fst (snd (run ops (c, w)))) = Some d /\ dc_conn d = n.
Proof.
  intros Hnew Hs.
  pose proof (run_preserves tidy step_tidy ops c w (fresh_tidy _ _ _ _ Hnew Hs))
    as Ht.
  destruct (run ops (c, w)) as [rs [c1 w1]]. cbn [fst snd] in *.
  destruct Ht as (_ & _ & Ho). exact (Ho n).
Qed.

Lemma w0_settled : settled w0.
Proof.
  intros n. cbn. split; [lia|]. intros H. now apply elem_of_nil in H.
Qed.

Lemma open_transports_are_the_session_witness :
  NewClient 7 (inr url_plain) = inr (fresh url_plain) /\
  let s := snd (run [OpConnect env_status200; OpSend env_send_fails 9 [1; 2];
                     OpRecv env_ok] (fresh url_plain, w0)) in
  next_conn (snd s) = 3 /\
  (open_transport (snd s) 2 <->
   exists d, client (fst s) = Some d /\ dc_conn d = 2).
Proof.
  split; [reflexivity|]. split; [reflexivity|].
  exact (open_transports_are_the_session 7 url_plain (fresh url_plain) w0
           [OpConnect env_status200; OpSend env_send_fails 9 [1; 2];
            OpRecv env_ok] 2 eq_refl w0_settled).
Defined.

(** X7.  From such a start, when Close returns nil after any sequence of
    operations, every transport that was ever dialled is closed. *)
Theorem Close_closes_every_transport key u c w ops n :
  NewClient key (inr u) = inr c -> settled w ->
  fst (Close (snd (run ops (c, w)))) = None ->
  n < next_conn (snd (snd (Close (snd (run ops (c, w)))))) ->
  n ∈ closed_conns (snd (snd (Close (snd (run ops (c, w)))))).
Proof.
  intros Hnew Hs Hclose Hn.
  pose proof (run_preserves tidy step_tidy ops c w (fresh_tidy _ _ _ _ Hnew Hs))
    as Ht.
  destruct (run ops (c, w)) as [rs [c1 w1]]. cbn [snd] in *.
  pose proof (step_tidy OpClose c1 w1 Ht) as H. cbn [step] in H.
  assert (Hc : client (fst (snd (Close (c1, w1)))) = None).
  { destruct (closed c1) eqn:Hcl.
    - rewrite Close_closed in Hclose by exact Hcl. discriminate.
    - rewrite Close_open by exact Hcl. cbn [fst snd].
      now destruct (client c1). }
  destruct (Close (c1, w1)) as [r [c2 w2]]. cbn [fst snd] in *.
  destruct H as (_ & _ & Ho).
  destruct (decide (n ∈ closed_conns w2)) as [Hin|Hnot]; [exact Hin|].
  destruct (proj1 (Ho n)) as (d & Hd & _); [split; assumption|].
  congruence.
Qed.

Lemma Close_closes_every_transport_witness :
  NewClient 7 (inr url_plain) = inr (fresh url_plain) /\
  fst (Close (snd (run [OpConnect env_status200; OpConnect env_ok]
                     (fresh url_plain, w0)))) = None /\
  1 ∈ closed_conns
        (snd (snd (Close (snd (run [OpConnect env_status200; OpConnect env_ok]
                                 (fresh url_plain, w0)))))).
Proof.
  split; [reflexivity|]. split; [vm_compute; reflexivity|].
  refine (Close_closes_every_transport 7 url_plain (fresh url_plain) w0
            [OpConnect env_status200; OpConnect env_ok] 1
            eq_refl w0_settled _ _).
  - vm_compute. reflexivity.
  - vm_compute. lia.
Defined.

(** ** What the client keeps with a session *)

Lemma step_session_record o c w :
  session_record (c, w) -> session_record (snd (step o (c, w))).
Proof.
  apply (step_preserves session_record).
  - intros e caller c0 w0 Hr.
    outcome_cases (connect_spec e caller c0 w0) H; cbn [snd]; try exact Hr;
      unfold session_record in *; cbn in *;
      match goal with Hc : client _ = None |- _ => rewrite Hc in * end;
      first [exact Hr | split; reflexivity].
  - intros c0 w0 Hr. rewrite close_spec. cbn [snd].
    unfold session_record in *. cbn [fst] in *.
    destruct (client c0) eqn:Hc; cbn; [reflexivity|]. now rewrite Hc.
  - intros ev c0 w0 _ Hr. exact Hr.
  - intros c0 w0 Hr. exact Hr.
Qed.

(** X8.  After every sequence of operations on a new client, a stored
    response is there exactly when a session is: with a session the client
    holds the 101 response with an empty body and the session carries the
    client's private key; without a session it holds no response. *)
Theorem response_kept_with_session key u c w ops :
  NewClient key (inr u) = inr c ->
  match client (fst (snd (run ops (c, w)))) with
  | Some d =>
      resp (fst (snd (run ops (c, w))))
      = Some {| StatusCode := 101; Body := "" |} /\
      dc_key d = key
  | None => resp (fst (snd (run ops (c, w)))) = None
  end.
Proof.
  intros Hnew.
  assert (H0 : session_record (c, w)) by (injection Hnew as <-; reflexivity).
  pose proof (run_preserves session_record step_session_record ops c w H0) as H.
  assert (Hk : privateKey (fst (snd (run ops (c, w)))) = key).
  { assert (Hc : privateKey c = key) by (injection Hnew as <-; reflexivity).
    apply (run_preserves (fun s => privateKey (fst s) = key)); [|exact Hc].
    intros o. apply (step_preserves (fun s => privateKey (fst s) = key)).
    - intros e caller c0 w0 Hc0.
      outcome_cases (connect_spec e caller c0 w0) H'; cbn [snd]; exact Hc0.
    - intros c0 w0 Hc0. rewrite close_spec. cbn [snd fst].
      now destruct (client c0).
    - intros ev c0 w0 _ Hc0. exact Hc0.
    - intros c0 w0 Hc0. exact Hc0. }
  unfold session_record in H.
  destruct (client (fst (snd (run ops (c, w))))); [|exact H].
  destruct H as [H1 H2]. split; [exact H1|congruence].
Qed.

Lemma response_kept_with_session_witness :
  NewClient 7 (inr url_plain) = inr (fresh url_plain) /\
  let s := snd (run [OpConnect env_status200; OpRecv env_ok]
                  (fresh url_plain, w0)) in
  client (fst s) = Some {| dc_key := 7; dc_conn := 1 |} /\
  resp (fst s) = Some {| StatusCode := 101; Body := "" |}.
Proof.
  split; [reflexivity|]. split; [reflexivity|].
  exact (proj1 (response_kept_with_session 7 url_plain (fresh url_plain) w0
                  [OpConnect env_status200; OpRecv env_ok] eq_refl)).
Defined.

(** X9.  No sequence of operations changes the endpoint or the private
    key of a client. *)
Theorem endpoint_and_key_never_change ops c w :
  url (fst (snd (run ops (c, w)))) = url c /\
  privateKey (fst (snd (run ops (c, w)))) = privateKey c.
Proof.
  apply (run_preserves
           (fun s => url (fst s) = url c /\ privateKey (fst s) = privateKey c));
    [|split; reflexivity].
  intros o.
  apply (step_preserves
           (fun s => url (fst s) = url c /\ privateKey (fst s) = privateKey c)).
  - intros e caller c0 w0 Hc.
    outcome_cases (connect_spec e caller c0 w0) H; cbn [snd]; exact Hc.
  - intros c0 w0 Hc. rewrite close_spec. cbn [snd fst].
    now destruct (client c0).
  - intros ev c0 w0 _ Hc. exact Hc.
  - intros c0 w0 Hc. exact Hc.
Qed.

(** ** The stages of the handshake *)

(** X10.  In a connection attempt whose dial succeeds and whose request
    is built, the request is flushed exactly when its write succeeded, the
    response is read exactly when write and flush succeeded, and the
    transport is closed by the attempt exactly when some stage failed. *)
Theorem handshake_stages_in_order e caller c w :
  closed c = false -> client c = None ->
  env_dial e = None -> env_newreq e = None ->
  exists evs : list Event,
    trace (snd (snd (connect e caller (c, w)))) = (trace w ++ evs)%list /\
    (EvFlush (next_conn w) ∈ evs <-> env_write e = None) /\
    (EvReadResponse (next_conn w) ∈ evs <->
     env_write e = None /\ env_flush e = None) /\
    (EvConnClose (next_conn w) ∈ evs <-> connect_ok e = false).
Proof.
  intros Hcl Hc Hd Hq.
  destruct (connect_attempt e caller c w Hcl Hc) as [_ Ht].
  eexists. split; [exact Ht|]. clear Ht.
  unfold handshake_events, first_fault, connect_ok. rewrite Hd, Hq.
  destruct (env_write e); [|destruct (env_flush e);
    [|destruct (env_read e) as [er|r];
      [|destruct (StatusCode r =? StatusSwitchingProtocols)%Z;
        destruct (env_newclient e)]]];
    rewrite !list_elem_of_In; cbn;
    intuition (try discriminate; try congruence).
Qed.

Lemma handshake_stages_in_order_witness :
  closed (fresh url_plain) = false /\ client (fresh url_plain) = None /\
  env_dial env_write_fails = None /\ env_newreq env_write_fails = None /\
  exists evs : list Event,
    trace (snd (snd (connect env_write_fails "derphttp.Client.Connect"
                       (fresh url_plain, w0)))) = (trace w0 ++ evs)%list /\
    (EvFlush 0 ∈ evs <-> env_write env_write_fails = None) /\
    (EvReadResponse 0 ∈ evs <->
     env_write env_write_fails = None /\ env_flush env_write_fails = None) /\
    (EvConnClose 0 ∈ evs <-> connect_ok env_write_fails = false).
Proof.
  do 4 (split; [reflexivity|]).
  exact (handshake_stages_in_order env_write_fails "derphttp.Client.Connect"
           (fresh url_plain) w0 eq_refl eq_refl eq_refl eq_refl).
Defined.

(** ** After a failed attempt *)

Lemma connect_failed_state e caller c w err :
  closed c = false ->
  fst (connect e caller (c, w)) = inl err ->
  closed (fst (snd (connect e caller (c, w)))) = false /\
  client (fst (snd (connect e caller (c, w)))) = None.
Proof.
  intros Hcl. outcome_cases (connect_spec e caller c w) H; cbn [fst snd];
    intros [= <-]; try congruence; auto.
Qed.

(** X11.  On a client that is not closed and has no session, let the
    connection attempt of a Connect, Send or Recv fail.  The next Connect,
    Send or Recv, when it meets no fault, returns nil after one new dial
    and installs a session over the newly dialled transport: a failed
    attempt does not stand in the way of the next one. *)
Theorem recovery_after_failed_attempt o1 o2 e c w err :
  closed c = false -> client c = None ->
  op_env o1 = Some e -> first_fault e = Some err -> healthy o2 = true ->
  let s1 := snd (step o1 (c, w)) in
  let s2 := snd (step o2 s1) in
  fst (step o2 s1) = None /\
  dials (trace (snd s2)) = S (dials (trace (snd s1))) /\
  exists d2, client (fst s2) = Some d2 /\ netConn (fst s2) = Some (dc_conn d2) /\
             dc_conn d2 = next_conn (snd s1).
Proof.
  intros Hcl Hc Ho Hf Hh s1 s2.
  assert (Hs1 : closed (fst s1) = false /\ client (fst s1) = None).
  { subst s1 s2.
    destruct o1 as [e'|e' dst b|e'|]; cbn in Ho; try discriminate;
      injection Ho as ->; cbn [step].
    - pose proof (proj1 (connect_attempt e "derphttp.Client.Connect" c w Hcl Hc))
        as H. rewrite Hf in H.
      pose proof (connect_failed_state e _ c w _ Hcl H) as H'.
      unfold Connect, bind. destruct (connect e _ (c, w)) as [r s]. exact H'.
    - pose proof (proj1 (connect_attempt e "derphttp.Client.Send" c w Hcl Hc))
        as H. rewrite Hf in H.
      pose proof (connect_failed_state e _ c w _ Hcl H) as H'.
      rewrite Send_unfold. destruct (connect e _ (c, w)) as [r s].
      cbn [fst] in H. subst r. exact H'.
    - pose proof (proj1 (connect_attempt e "derphttp.Client.Recv" c w Hcl Hc))
        as H. rewrite Hf in H.
      pose proof (connect_failed_state e _ c w _ Hcl H) as H'.
      unfold bind, ret. rewrite Recv_unfold.
      destruct (connect e _ (c, w)) as [r s].
      cbn [fst] in H. subst r. exact H'. }
  subst s2. destruct s1 as [c1 w1]. cbn [fst snd] in *.
  destruct Hs1 as [Hcl1 Hc1].
  rewrite step_healthy by done. cbn [fst snd].
  split; [reflexivity|]. split.
  - unfold extend. cbn [trace]. rewrite !dials_app.
    rewrite (proj1 (connect_events_counts _ _ _)).
    assert (dials (session_events o2 (next_conn w1)) = 0) as ->
      by now destruct o2.
    lia.
  - eexists. cbn. repeat split.
Qed.

Lemma recovery_after_failed_attempt_witness :
  let s1 := snd (step (OpSend env_write_fails 9 [1]) (fresh url_plain, w0)) in
  let s2 := snd (step (OpSend env_ok 9 [1]) s1) in
  (closed (fresh url_plain) = false /\ client (fresh url_plain) = None /\
   first_fault env_write_fails = Some (ErrCollab "write: timeout")) /\
  fst (step (OpSend env_ok 9 [1]) s1) = None /\
  dials (trace (snd s2)) = S (dials (trace (snd s1))) /\
  exists d2, client (fst s2) = Some d2 /\ netConn (fst s2) = Some (dc_conn d2) /\
             dc_conn d2 = next_conn (snd s1).
Proof.
  split; [repeat split|].
  exact (recovery_after_failed_attempt (OpSend env_write_fails 9 [1])
           (OpSend env_ok 9 [1]) env_write_fails (fresh url_plain) w0
           (ErrCollab "write: timeout")
           eq_refl eq_refl eq_refl eq_refl eq_refl).
Defined.

(** ** The dial of an attempt *)

(** X12.  A connection attempt first logs "<caller>: connecting" and then
    dials once.  For a scheme other than https the dial is a plain one to
    the Host field of the URL as it is, whether it names a port or not;
    for https and a Host field without a colon it is a TLS dial to
    Host:443. *)
Theorem dial_of_an_attempt e caller c w :
  closed c = false -> client c = None ->
  exists tls addr evs,
    trace (snd (snd (connect e caller (c, w))))
    = (trace w
       ++ EvLog (caller +:+ ": connecting")
       :: EvDial tls addr
            (match env_dial e with
             | Some _ => None
             | None => Some (next_conn w)
             end)
       :: evs)%list /\
    (Scheme (url c) <> "https" -> tls = false /\ addr = Host (url c)) /\
    (Scheme (url c) = "https" -> GoStd.has_colon (Host (url c)) = false ->
     tls = true /\ addr = Host (url c) +:+ ":443").
Proof.
  intros Hcl Hc.
  destruct (connect_attempt e caller c w Hcl Hc) as [_ Ht].
  exists (fst (dial_target (url c))), (snd (dial_target (url c))).
  exists (match env_dial e with
          | Some _ => []
          | None =>
              (handshake_events e (url c) (next_conn w)
               ++ match first_fault e with
                  | Some _ => [EvConnClose (next_conn w)]
                  | None => []
                  end)%list
          end).
  split.
  - rewrite Ht. destruct (env_dial e); reflexivity.
  - split.
    + intros Hs. now rewrite dial_target_plain.
    + intros Hs Hh. now rewrite dial_target_tls_default_port.
Qed.

Lemma dial_of_an_attempt_witness :
  closed (fresh url_tls_noport) = false /\
  client (fresh url_tls_noport) = None /\
  exists tls addr evs,
    trace (snd (snd (connect env_ok "derphttp.Client.Connect"
                       (fresh url_tls_noport, w0))))
    = (trace w0
       ++ EvLog "derphttp.Client.Connect: connecting"
       :: EvDial tls addr (Some 0) :: evs)%list /\
    (Scheme url_tls_noport <> "https" ->
     tls = false /\ addr = "relay.example") /\
    (Scheme url_tls_noport = "https" ->
     GoStd.has_colon "relay.example" = false ->
     tls = true /\ addr = "relay.example:443").
Proof.
  do 2 (split; [reflexivity|]).
  exact (dial_of_an_attempt env_ok "derphttp.Client.Connect"
           (fresh url_tls_noport) w0 eq_refl eq_refl).
Defined.
